(** * Reduction of propositional formulas to restricted operator sets

    A shallow embedding of [propositions/operators.py]: the five converters
    [to_not_and_or], [to_not_and], [to_nand], [to_implies_not] and
    [to_implies_false], together with the properties claimed about them. *)

From Stdlib Require Import String Ascii Bool List Arith Lia.
From stdpp Require Import base option gmap strings.
Import ListNotations.

Local Open Scope string_scope.
Local Open Scope list_scope.

#[local] Set Warnings "-clear-no-such-hyp".

(** ** Exceptions

    The converters either return a formula or raise.  [ValueError] is the
    exception of the [raise ValueError('Unknown operator: ' + root)] lines;
    [AttributeError] is what Python raises when [formula.first] or
    [formula.second] is read on a node that has no such child. *)

Inductive exception : Type :=
| ValueError (msg : string)
| AttributeError (attr : string).

Inductive result (A : Type) : Type :=
| Return (a : A)
| Raise (e : exception).

Arguments Return {A} a.
Arguments Raise {A} e.

#[global] Instance result_ret : MRet result := fun A a => Return a.
#[global] Instance result_bind : MBind result := fun A B k m =>
  match m with
  | Return a => k a
  | Raise e => Raise e
  end.

(** ** Formulas

    Modelled from the spec: the class [Formula] of [propositions/syntax.py]
    is not part of the sources.  A node holds its [root] string and zero, one
    or two children, as in the three call shapes [Formula(root)],
    [Formula(root, first)] and [Formula(root, first, second)]. *)

Inductive Formula : Type :=
| Formula0 (root : string)
| Formula1 (root : string) (first : Formula)
| Formula2 (root : string) (first second : Formula).

Definition root (formula : Formula) : string :=
  match formula with
  | Formula0 r | Formula1 r _ | Formula2 r _ _ => r
  end.

(** Modelled from the spec: the classification predicates of
    [propositions/syntax.py].  A variable name starts with a lowercase letter
    and continues with letters and digits; the constants are [T] and [F]; the
    only unary operator is [~]; the binary operators are and, or, implies,
    xor, iff, nand and nor. *)

Definition is_lower (c : ascii) : bool :=
  let n := nat_of_ascii c in Nat.leb 97 n && Nat.leb n 122.

Definition is_upper (c : ascii) : bool :=
  let n := nat_of_ascii c in Nat.leb 65 n && Nat.leb n 90.

Definition is_digit (c : ascii) : bool :=
  let n := nat_of_ascii c in Nat.leb 48 n && Nat.leb n 57.

Definition is_variable (s : string) : bool :=
  match s with
  | EmptyString => false
  | String c rest =>
      is_lower c &&
      forallb (fun d => is_lower d || is_upper d || is_digit d)
              (list_ascii_of_string rest)
  end.

Definition is_constant (s : string) : bool := (s =? "T") || (s =? "F").

Definition is_unary (s : string) : bool := s =? "~".

Definition binary_operators : list string :=
  ["&"; "|"; "->"; "+"; "<->"; "-&"; "-|"].

Definition is_binary (s : string) : bool :=
  existsb (String.eqb s) binary_operators.

(** ** The base converter *)

Fixpoint to_not_and_or (formula : Formula) : result Formula :=
  let rec_first :=
    match formula with
    | Formula0 _ => Raise (AttributeError "first")
    | Formula1 _ first | Formula2 _ first _ => to_not_and_or first
    end in
  let rec_second :=
    match formula with
    | Formula0 _ | Formula1 _ _ => Raise (AttributeError "second")
    | Formula2 _ _ second => to_not_and_or second
    end in
  if is_variable (root formula) then Return formula
  else if is_constant (root formula) then
    let p := Formula0 "p" in
    if root formula =? "T" then Return (Formula2 "|" p (Formula1 "~" p))
    else Return (Formula2 "&" p (Formula1 "~" p))
  else if is_unary (root formula) then
    a ← rec_first; Return (Formula1 "~" a)
  else
    a ← rec_first;
    b ← rec_second;
    if (root formula =? "&") || (root formula =? "|") then
      Return (Formula2 (root formula) a b)
    else if root formula =? "->" then
      Return (Formula2 "|" (Formula1 "~" a) b)
    else if root formula =? "+" then
      Return (Formula2 "|"
                (Formula2 "&" a (Formula1 "~" b))
                (Formula2 "&" (Formula1 "~" a) b))
    else if root formula =? "<->" then
      Return (Formula2 "|"
                (Formula2 "&" a b)
                (Formula2 "&" (Formula1 "~" a) (Formula1 "~" b)))
    else if root formula =? "-&" then
      Return (Formula1 "~" (Formula2 "&" a b))
    else if root formula =? "-|" then
      Return (Formula1 "~" (Formula2 "|" a b))
    else Raise (ValueError ("Unknown operator: " ++ root formula)).

(** ** The four derived converters

    Each one runs an earlier converter and then its own local [conv]. *)

Fixpoint to_not_and_conv (g : Formula) : result Formula :=
  let conv_first :=
    match g with
    | Formula0 _ => Raise (AttributeError "first")
    | Formula1 _ first | Formula2 _ first _ => to_not_and_conv first
    end in
  let conv_second :=
    match g with
    | Formula0 _ | Formula1 _ _ => Raise (AttributeError "second")
    | Formula2 _ _ second => to_not_and_conv second
    end in
  if is_variable (root g) then Return g
  else if is_constant (root g) then Return g
  else if is_unary (root g) then
    x ← conv_first; Return (Formula1 "~" x)
  else if root g =? "&" then
    x ← conv_first; y ← conv_second; Return (Formula2 "&" x y)
  else if root g =? "|" then
    left ← conv_first;
    right ← conv_second;
    Return (Formula1 "~"
              (Formula2 "&" (Formula1 "~" left) (Formula1 "~" right)))
  else Raise (ValueError ("Unknown operator: " ++ root g)).

Definition to_not_and (formula : Formula) : result Formula :=
  f ← to_not_and_or formula; to_not_and_conv f.

Fixpoint to_nand_conv (g : Formula) : result Formula :=
  let conv_first :=
    match g with
    | Formula0 _ => Raise (AttributeError "first")
    | Formula1 _ first | Formula2 _ first _ => to_nand_conv first
    end in
  let conv_second :=
    match g with
    | Formula0 _ | Formula1 _ _ => Raise (AttributeError "second")
    | Formula2 _ _ second => to_nand_conv second
    end in
  if is_variable (root g) then Return g
  else if is_constant (root g) then Return g
  else if is_unary (root g) then
    x ← conv_first; Return (Formula2 "-&" x x)
  else if root g =? "&" then
    x ← conv_first;
    y ← conv_second;
    let t := Formula2 "-&" x y in
    Return (Formula2 "-&" t t)
  else Raise (ValueError ("Unknown operator: " ++ root g)).

Definition to_nand (formula : Formula) : result Formula :=
  f ← to_not_and formula; to_nand_conv f.

Fixpoint to_implies_not_conv (g : Formula) : result Formula :=
  let conv_first :=
    match g with
    | Formula0 _ => Raise (AttributeError "first")
    | Formula1 _ first | Formula2 _ first _ => to_implies_not_conv first
    end in
  let conv_second :=
    match g with
    | Formula0 _ | Formula1 _ _ => Raise (AttributeError "second")
    | Formula2 _ _ second => to_implies_not_conv second
    end in
  if is_variable (root g) then Return g
  else if is_constant (root g) then Return g
  else if is_unary (root g) then
    x ← conv_first; Return (Formula1 "~" x)
  else
    a ← conv_first;
    b ← conv_second;
    if root g =? "|" then
      Return (Formula2 "->" (Formula1 "~" a) b)
    else if root g =? "&" then
      Return (Formula1 "~" (Formula2 "->" a (Formula1 "~" b)))
    else Raise (ValueError ("Unknown operator: " ++ root g)).

Definition to_implies_not (formula : Formula) : result Formula :=
  f ← to_not_and_or formula; to_implies_not_conv f.

Fixpoint to_implies_false_conv (g : Formula) : result Formula :=
  let conv_first :=
    match g with
    | Formula0 _ => Raise (AttributeError "first")
    | Formula1 _ first | Formula2 _ first _ => to_implies_false_conv first
    end in
  let conv_second :=
    match g with
    | Formula0 _ | Formula1 _ _ => Raise (AttributeError "second")
    | Formula2 _ _ second => to_implies_false_conv second
    end in
  if is_variable (root g) then Return g
  else if is_constant (root g) then
    if root g =? "F" then Return g
    else Return (Formula2 "->" (Formula0 "F") (Formula0 "F"))
  else if is_unary (root g) then
    x ← conv_first; Return (Formula2 "->" x (Formula0 "F"))
  else
    a ← conv_first;
    b ← conv_second;
    if root g =? "|" then
      Return (Formula2 "->" (Formula2 "->" a (Formula0 "F")) b)
    else if root g =? "&" then
      Return (Formula2 "->"
                (Formula2 "->" a (Formula2 "->" b (Formula0 "F")))
                (Formula0 "F"))
    else Raise (ValueError ("Unknown operator: " ++ root g)).

Definition to_implies_false (formula : Formula) : result Formula :=
  f ← to_not_and_or formula; to_implies_false_conv f.

(** The five entry points as a table, with the operator set each one
    guarantees for its output. *)

Inductive reducer : Type :=
| ToNotAndOr
| ToNotAnd
| ToNand
| ToImpliesNot
| ToImpliesFalse.

Definition reduce (r : reducer) : Formula → result Formula :=
  match r with
  | ToNotAndOr => to_not_and_or
  | ToNotAnd => to_not_and
  | ToNand => to_nand
  | ToImpliesNot => to_implies_not
  | ToImpliesFalse => to_implies_false
  end.

Definition guaranteed_operators (r : reducer) : list string :=
  match r with
  | ToNotAndOr => ["~"; "&"; "|"]
  | ToNotAnd => ["~"; "&"]
  | ToNand => ["-&"]
  | ToImpliesNot => ["->"; "~"]
  | ToImpliesFalse => ["->"; "F"]
  end.

(** ** Structural notions used by the properties *)

(** Well-formed trees: every node's symbol belongs to the known set for the
    number of children the node has. *)
Fixpoint well_formed (f : Formula) : bool :=
  match f with
  | Formula0 r => is_variable r || is_constant r
  | Formula1 r a => is_unary r && well_formed a
  | Formula2 r a b => is_binary r && well_formed a && well_formed b
  end.

(** The arity invariant alone: leaves are variables or constants, one-child
    nodes carry [~], and two-child nodes carry any other symbol, known or
    not. *)
Fixpoint arity_respected (f : Formula) : bool :=
  match f with
  | Formula0 r => is_variable r || is_constant r
  | Formula1 r a => is_unary r && arity_respected a
  | Formula2 r a b =>
      negb (is_variable r || is_constant r || is_unary r)
      && arity_respected a && arity_respected b
  end.

(** The symbols on the two-child nodes of a tree. *)
Fixpoint binary_roots (f : Formula) : list string :=
  match f with
  | Formula0 _ => []
  | Formula1 _ a => binary_roots a
  | Formula2 r a b => r :: binary_roots a ++ binary_roots b
  end.

(** Structural scan: every node is a variable or carries a symbol of [ops]. *)
Fixpoint uses_only (ops : list string) (f : Formula) : bool :=
  match f with
  | Formula0 r => is_variable r || existsb (String.eqb r) ops
  | Formula1 r a => existsb (String.eqb r) ops && uses_only ops a
  | Formula2 r a b =>
      existsb (String.eqb r) ops && uses_only ops a && uses_only ops b
  end.

Fixpoint has_constant (f : Formula) : bool :=
  match f with
  | Formula0 r => is_constant r
  | Formula1 r a => is_constant r || has_constant a
  | Formula2 r a b => is_constant r || has_constant a || has_constant b
  end.

Fixpoint has_xor_or_iff (f : Formula) : bool :=
  match f with
  | Formula0 _ => false
  | Formula1 _ a => has_xor_or_iff a
  | Formula2 r a b =>
      (r =? "+") || (r =? "<->") || has_xor_or_iff a || has_xor_or_iff b
  end.

(** Node count and height of a tree. *)
Fixpoint formula_size (f : Formula) : nat :=
  match f with
  | Formula0 _ => 1
  | Formula1 _ a => S (formula_size a)
  | Formula2 _ a b => S (formula_size a + formula_size b)
  end.

Fixpoint formula_depth (f : Formula) : nat :=
  match f with
  | Formula0 _ => 0
  | Formula1 _ a => S (formula_depth a)
  | Formula2 _ a b => S (Nat.max (formula_depth a) (formula_depth b))
  end.

(** ** Semantics

    Modelled from the spec: [propositions/semantics.py] is not part of the
    sources.  A model is a dictionary from variable names to truth values;
    evaluation is the usual truth-functional one and has no value when the
    model misses a variable of the formula. *)

Fixpoint variables (f : Formula) : gset string :=
  match f with
  | Formula0 r => if is_variable r then {[ r ]} else ∅
  | Formula1 _ a => variables a
  | Formula2 _ a b => variables a ∪ variables b
  end.

Definition evaluate_binary (op : string) (x y : bool) : option bool :=
  if op =? "&" then Some (x && y)
  else if op =? "|" then Some (x || y)
  else if op =? "->" then Some (implb x y)
  else if op =? "+" then Some (xorb x y)
  else if op =? "<->" then Some (eqb x y)
  else if op =? "-&" then Some (negb (x && y))
  else if op =? "-|" then Some (negb (x || y))
  else None.

Fixpoint evaluate (formula : Formula) (model : gmap string bool)
  : option bool :=
  match formula with
  | Formula0 r =>
      if is_constant r then Some (r =? "T")
      else if is_variable r then model !! r
      else None
  | Formula1 r a =>
      if is_unary r then negb <$> evaluate a model else None
  | Formula2 r a b =>
      x ← evaluate a model;
      y ← evaluate b model;
      evaluate_binary r x y
  end.

(** A converter's result has truth value [v] in [model]. *)
Definition evaluates_to (res : result Formula) (model : gmap string bool)
  (v : bool) : Prop :=
  ∃ g, res = Return g ∧ evaluate g model = Some v.

(** Shorthands for the nodes the converters build. *)
Abbreviation Leaf x := (Formula0 x) (only parsing).
Abbreviation Not a := (Formula1 "~" a) (only parsing).
Abbreviation And a b := (Formula2 "&" a b) (only parsing).
Abbreviation Or a b := (Formula2 "|" a b) (only parsing).
Abbreviation Implies a b := (Formula2 "->" a b) (only parsing).
Abbreviation Nand a b := (Formula2 "-&" a b) (only parsing).

(** The shape of the trees [to_not_and_or] returns: variables under [~],
    [&] and [|], with no constant. *)
Inductive not_and_or_form : Formula → Prop :=
| naof_variable x : is_variable x = true → not_and_or_form (Leaf x)
| naof_not a : not_and_or_form a → not_and_or_form (Not a)
| naof_and a b :
    not_and_or_form a → not_and_or_form b → not_and_or_form (And a b)
| naof_or a b :
    not_and_or_form a → not_and_or_form b → not_and_or_form (Or a b).

(** The shape of the trees [to_not_and] returns. *)
Inductive not_and_form : Formula → Prop :=
| naf_variable x : is_variable x = true → not_and_form (Leaf x)
| naf_not a : not_and_form a → not_and_form (Not a)
| naf_and a b : not_and_form a → not_and_form b → not_and_form (And a b).

(** Number of nodes that carry the symbol [s]. *)
Fixpoint count_root (s : string) (f : Formula) : nat :=
  match f with
  | Formula0 r => if r =? s then 1 else 0
  | Formula1 r a => (if r =? s then 1 else 0) + count_root s a
  | Formula2 r a b =>
      (if r =? s then 1 else 0) + count_root s a + count_root s b
  end.

(** What a structural scan of a second-pass result finds: a well-formed
    tree over [ops]; [consts] tells whether it may hold a constant. *)
Definition scanned (ops : list string) (consts : bool) (h : Formula) : Prop :=
  well_formed h = true ∧ uses_only ops h = true
  ∧ (consts = false → has_constant h = false).

(** The unknown symbol the base converter meets first: children are
    converted before the symbol of their parent is looked at, the first
    child before the second. *)
Fixpoint first_unknown (f : Formula) : option string :=
  match f with
  | Formula0 _ => None
  | Formula1 _ a => first_unknown a
  | Formula2 r a b =>
      match first_unknown a with
      | Some op => Some op
      | None =>
          match first_unknown b with
          | Some op => Some op
          | None => if is_binary r then None else Some r
          end
      end
  end.

(** Trees over variables, the two constants, [~], [&] and [|]: the inputs
    on which every branch of a second pass but the last can be taken. *)
Inductive not_and_or_constant_form : Formula → Prop :=
| naocf_variable x :
    is_variable x = true → not_and_or_constant_form (Leaf x)
| naocf_T : not_and_or_constant_form (Leaf "T")
| naocf_F : not_and_or_constant_form (Leaf "F")
| naocf_not a :
    not_and_or_constant_form a → not_and_or_constant_form (Not a)
| naocf_and a b :
    not_and_or_constant_form a → not_and_or_constant_form b →
    not_and_or_constant_form (And a b)
| naocf_or a b :
    not_and_or_constant_form a → not_and_or_constant_form b →
    not_and_or_constant_form (Or a b).

(** The bound on the height of a reducer's result, as a function of the
    height [d] of its input. *)
Definition depth_bound (r : reducer) (d : nat) : nat :=
  match r with
  | ToNotAndOr => 3 * d + 2
  | ToNotAnd | ToImpliesNot | ToImpliesFalse => 9 * d + 6
  | ToNand => 18 * d + 12
  end.

Definition is_leaf (f : Formula) : bool :=
  match f with
  | Formula0 _ => true
  | _ => false
  end.

(** Two families of inputs on which the duplication in the rewrite rules
    shows: [n] negations of a variable, and [n] uses of one binary operator
    nested to the left. *)
Fixpoint negations (n : nat) : Formula :=
  match n with
  | O => Leaf "q"
  | S m => Not (negations m)
  end.

Fixpoint left_chain (op : string) (n : nat) : Formula :=
  match n with
  | O => Leaf "q"
  | S m => Formula2 op (left_chain op m) (Leaf "q")
  end.

(** ** Classification facts *)

Lemma is_constant_cases r : is_constant r = true → r = "T" ∨ r = "F".
Proof.
  unfold is_constant. intros H. apply orb_true_iff in H.
  destruct H as [H | H]; apply String.eqb_eq in H; auto.
Qed.

Lemma is_unary_eq r : is_unary r = true → r = "~".
Proof. apply String.eqb_eq. Qed.

Lemma is_binary_In r : is_binary r = true ↔ In r binary_operators.
Proof.
  unfold is_binary. rewrite existsb_exists. split.
  - intros (x & Hx & Heq). apply String.eqb_eq in Heq. by subst.
  - intros H. exists r. split; [done | apply String.eqb_refl].
Qed.

(** Induction over well-formed trees, one case per kind of node. *)
Lemma well_formed_ind (P : Formula → Prop) :
  (∀ x, is_variable x = true → P (Formula0 x)) →
  P (Formula0 "T") →
  P (Formula0 "F") →
  (∀ a, well_formed a = true → P a → P (Formula1 "~" a)) →
  (∀ op a b, In op binary_operators →
     well_formed a = true → well_formed b = true →
     P a → P b → P (Formula2 op a b)) →
  ∀ f, well_formed f = true → P f.
Proof.
  intros Hvar HT HF Hnot Hbin. induction f as [r | r a IHa | r a IHa b IHb];
    cbn [well_formed]; intros Hwf.
  - apply orb_true_iff in Hwf. destruct Hwf as [Hv | Hc]; [by apply Hvar |].
    destruct (is_constant_cases _ Hc); by subst.
  - apply andb_true_iff in Hwf. destruct Hwf as [Hu Ha].
    apply is_unary_eq in Hu. subst r. apply Hnot; auto.
  - apply andb_true_iff in Hwf. destruct Hwf as [Hwf Hb].
    apply andb_true_iff in Hwf. destruct Hwf as [Hop Ha].
    apply Hbin; auto. by apply is_binary_In.
Qed.

(** ** Unfolding equations of the base converter *)

Lemma to_not_and_or_variable x :
  is_variable x = true → to_not_and_or (Leaf x) = Return (Leaf x).
Proof. intros H. cbn [to_not_and_or root]. by rewrite H. Qed.

Lemma to_not_and_or_not a :
  to_not_and_or (Not a) = a' ← to_not_and_or a; Return (Not a').
Proof. reflexivity. Qed.

Lemma to_not_and_or_and a b :
  to_not_and_or (And a b) =
  a' ← to_not_and_or a; b' ← to_not_and_or b; Return (And a' b').
Proof. reflexivity. Qed.

Lemma to_not_and_or_or a b :
  to_not_and_or (Or a b) =
  a' ← to_not_and_or a; b' ← to_not_and_or b; Return (Or a' b').
Proof. reflexivity. Qed.

Lemma to_not_and_or_implies a b :
  to_not_and_or (Implies a b) =
  a' ← to_not_and_or a; b' ← to_not_and_or b; Return (Or (Not a') b').
Proof. reflexivity. Qed.

Lemma to_not_and_or_xor a b :
  to_not_and_or (Formula2 "+" a b) =
  a' ← to_not_and_or a; b' ← to_not_and_or b;
  Return (Or (And a' (Not b')) (And (Not a') b')).
Proof. reflexivity. Qed.

Lemma to_not_and_or_iff a b :
  to_not_and_or (Formula2 "<->" a b) =
  a' ← to_not_and_or a; b' ← to_not_and_or b;
  Return (Or (And a' b') (And (Not a') (Not b'))).
Proof. reflexivity. Qed.

Lemma to_not_and_or_nand a b :
  to_not_and_or (Nand a b) =
  a' ← to_not_and_or a; b' ← to_not_and_or b; Return (Not (And a' b')).
Proof. reflexivity. Qed.

Lemma to_not_and_or_nor a b :
  to_not_and_or (Formula2 "-|" a b) =
  a' ← to_not_and_or a; b' ← to_not_and_or b; Return (Not (Or a' b')).
Proof. reflexivity. Qed.

Lemma bind_Return {A B} (a : A) (k : A → result B) : Return a ≫= k = k a.
Proof. reflexivity. Qed.

(** The input/output behaviour of [to_not_and_or] on well-formed trees, as
    an elimination rule: a relation closed under the eleven rewrite cases
    holds between every well-formed input and the tree returned for it. *)
Lemma to_not_and_or_elim (P : Formula → Formula → Prop) :
  (∀ x, is_variable x = true → P (Leaf x) (Leaf x)) →
  P (Leaf "T") (Or (Leaf "p") (Not (Leaf "p"))) →
  P (Leaf "F") (And (Leaf "p") (Not (Leaf "p"))) →
  (∀ a a', P a a' → P (Not a) (Not a')) →
  (∀ a b a' b', P a a' → P b b' → P (And a b) (And a' b')) →
  (∀ a b a' b', P a a' → P b b' → P (Or a b) (Or a' b')) →
  (∀ a b a' b', P a a' → P b b' → P (Implies a b) (Or (Not a') b')) →
  (∀ a b a' b', P a a' → P b b' →
     P (Formula2 "+" a b) (Or (And a' (Not b')) (And (Not a') b'))) →
  (∀ a b a' b', P a a' → P b b' →
     P (Formula2 "<->" a b) (Or (And a' b') (And (Not a') (Not b')))) →
  (∀ a b a' b', P a a' → P b b' → P (Nand a b) (Not (And a' b'))) →
  (∀ a b a' b', P a a' → P b b' →
     P (Formula2 "-|" a b) (Not (Or a' b'))) →
  ∀ f, well_formed f = true → ∃ g, to_not_and_or f = Return g ∧ P f g.
Proof.
  intros Hvar HT HF Hnot Hand Hor Himp Hxor Hiff Hnand Hnor.
  apply well_formed_ind.
  - intros x Hx. rewrite to_not_and_or_variable by done. eauto.
  - eexists. split; [reflexivity | done].
  - eexists. split; [reflexivity | done].
  - intros a _ (a' & Ha & HPa). rewrite to_not_and_or_not, Ha. eauto.
  - intros op a b Hop _ _ (a' & Ha & HPa) (b' & Hb & HPb).
    cbn in Hop.
    destruct Hop as [<- | [<- | [<- | [<- | [<- | [<- | [<- | []]]]]]]].
    + rewrite to_not_and_or_and, Ha, Hb. eauto.
    + rewrite to_not_and_or_or, Ha, Hb. eauto.
    + rewrite to_not_and_or_implies, Ha, Hb. eauto.
    + rewrite to_not_and_or_xor, Ha, Hb. eauto.
    + rewrite to_not_and_or_iff, Ha, Hb. eauto.
    + rewrite to_not_and_or_nand, Ha, Hb. eauto.
    + rewrite to_not_and_or_nor, Ha, Hb. eauto.
Qed.

Lemma to_not_and_or_total f :
  well_formed f = true → ∃ g, to_not_and_or f = Return g.
Proof.
  intros Hwf.
  destruct (to_not_and_or_elim (fun _ _ => True)) with (f := f)
    as (g & Hg & _); eauto.
Qed.

(** A property shown of "the" result holds of a result already at hand. *)
Lemma result_at {A} (res : result A) (P : A → Prop) a :
  res = Return a → (∃ a', res = Return a' ∧ P a') → P a.
Proof. intros Ha (a' & Ha' & HP). congruence. Qed.

Ltac at_result H :=
  match type of H with
  | _ = Return ?a => pattern a; apply (result_at _ _ _ H); cbv beta; clear H
  end.

(** *** The base converter returns a tree in not-and-or form *)

Lemma to_not_and_or_form f :
  well_formed f = true →
  ∃ g, to_not_and_or f = Return g ∧ not_and_or_form g.
Proof.
  apply (to_not_and_or_elim (fun _ g => not_and_or_form g));
    intros; repeat constructor; auto.
Qed.

(** ** Evaluation lemmas *)

Lemma is_variable_not_constant x :
  is_variable x = true → is_constant x = false.
Proof.
  intros Hx. destruct (is_constant x) eqn:Hc; [| done].
  destruct (is_constant_cases _ Hc); subst; discriminate.
Qed.

Lemma evaluate_variable x (model : gmap string bool) :
  is_variable x = true → evaluate (Leaf x) model = model !! x.
Proof.
  intros Hx. cbn [evaluate].
  by rewrite (is_variable_not_constant _ Hx), Hx.
Qed.

Lemma evaluate_not a (model : gmap string bool) :
  evaluate (Not a) model = negb <$> evaluate a model.
Proof. reflexivity. Qed.

Lemma evaluate_binary_node op a b (model : gmap string bool) :
  evaluate (Formula2 op a b) model =
  x ← evaluate a model; y ← evaluate b model; evaluate_binary op x y.
Proof. reflexivity. Qed.

Lemma evaluate_F (model : gmap string bool) :
  evaluate (Leaf "F") model = Some false.
Proof. reflexivity. Qed.

Lemma evaluate_T (model : gmap string bool) :
  evaluate (Leaf "T") model = Some true.
Proof. reflexivity. Qed.

Ltac evaluate_nodes :=
  repeat first
    [ rewrite evaluate_not
    | rewrite evaluate_binary_node
    | rewrite evaluate_F
    | rewrite evaluate_T
    | rewrite evaluate_variable by (assumption || reflexivity) ].

(** Case analysis on the truth values of the subformulas. *)
Ltac truth_table :=
  repeat match goal with
    | |- context [evaluate ?a ?m] => destruct (evaluate a m) as [[|]|]
    | |- context [?m !! ?x] => destruct (m !! x) as [[|]|]
    end;
  try reflexivity.

Lemma to_not_and_or_evaluate f (model : gmap string bool) :
  well_formed f = true → is_Some (model !! "p") →
  ∃ g, to_not_and_or f = Return g ∧ evaluate g model = evaluate f model.
Proof.
  intros Hwf [v Hp]. revert f Hwf.
  apply (to_not_and_or_elim
           (fun f g => evaluate g model = evaluate f model)).
  - done.
  - evaluate_nodes. rewrite Hp. by destruct v.
  - evaluate_nodes. rewrite Hp. by destruct v.
  - intros a a' Ha. evaluate_nodes. by rewrite Ha.
  - intros a b a' b' Ha Hb. evaluate_nodes. by rewrite Ha, Hb.
  - intros a b a' b' Ha Hb. evaluate_nodes. by rewrite Ha, Hb.
  - intros a b a' b' Ha Hb. evaluate_nodes. rewrite Ha, Hb. truth_table.
  - intros a b a' b' Ha Hb. evaluate_nodes. rewrite Ha, Hb. truth_table.
  - intros a b a' b' Ha Hb. evaluate_nodes. rewrite Ha, Hb. truth_table.
  - intros a b a' b' Ha Hb. evaluate_nodes. rewrite Ha, Hb. truth_table.
  - intros a b a' b' Ha Hb. evaluate_nodes. rewrite Ha, Hb. truth_table.
Qed.

(** ** The second passes

    Each [conv] is only ever run on the result of an earlier pass, so its
    behaviour is stated over the shape that pass returns. *)

Lemma to_not_and_conv_variable x :
  is_variable x = true → to_not_and_conv (Leaf x) = Return (Leaf x).
Proof. intros H. cbn [to_not_and_conv root]. by rewrite H. Qed.

Lemma to_nand_conv_variable x :
  is_variable x = true → to_nand_conv (Leaf x) = Return (Leaf x).
Proof. intros H. cbn [to_nand_conv root]. by rewrite H. Qed.

Lemma to_implies_not_conv_variable x :
  is_variable x = true → to_implies_not_conv (Leaf x) = Return (Leaf x).
Proof. intros H. cbn [to_implies_not_conv root]. by rewrite H. Qed.

Lemma to_implies_false_conv_variable x :
  is_variable x = true → to_implies_false_conv (Leaf x) = Return (Leaf x).
Proof. intros H. cbn [to_implies_false_conv root]. by rewrite H. Qed.

Lemma to_not_and_conv_elim (P : Formula → Formula → Prop) :
  (∀ x, is_variable x = true → P (Leaf x) (Leaf x)) →
  (∀ a a', P a a' → P (Not a) (Not a')) →
  (∀ a b a' b', P a a' → P b b' → P (And a b) (And a' b')) →
  (∀ a b a' b', P a a' → P b b' →
     P (Or a b) (Not (And (Not a') (Not b')))) →
  ∀ g, not_and_or_form g → ∃ h, to_not_and_conv g = Return h ∧ P g h.
Proof.
  intros Hvar Hnot Hand Hor g Hg.
  induction Hg as [x Hx | a _ (a' & Ha & HPa)
                  | a b _ (a' & Ha & HPa) _ (b' & Hb & HPb)
                  | a b _ (a' & Ha & HPa) _ (b' & Hb & HPb)].
  - rewrite to_not_and_conv_variable by done. eauto.
  - exists (Not a'). split; [| auto].
    change (to_not_and_conv (Not a))
      with (x ← to_not_and_conv a; Return (Not x)).
    by rewrite Ha.
  - exists (And a' b'). split; [| auto].
    change (to_not_and_conv (And a b))
      with (x ← to_not_and_conv a; y ← to_not_and_conv b;
            Return (And x y)).
    by rewrite Ha, Hb.
  - exists (Not (And (Not a') (Not b'))). split; [| auto].
    change (to_not_and_conv (Or a b))
      with (x ← to_not_and_conv a; y ← to_not_and_conv b;
            Return (Not (And (Not x) (Not y)))).
    by rewrite Ha, Hb.
Qed.

Lemma to_nand_conv_elim (P : Formula → Formula → Prop) :
  (∀ x, is_variable x = true → P (Leaf x) (Leaf x)) →
  (∀ a a', P a a' → P (Not a) (Nand a' a')) →
  (∀ a b a' b', P a a' → P b b' →
     P (And a b) (Nand (Nand a' b') (Nand a' b'))) →
  ∀ g, not_and_form g → ∃ h, to_nand_conv g = Return h ∧ P g h.
Proof.
  intros Hvar Hnot Hand g Hg.
  induction Hg as [x Hx | a _ (a' & Ha & HPa)
                  | a b _ (a' & Ha & HPa) _ (b' & Hb & HPb)].
  - rewrite to_nand_conv_variable by done. eauto.
  - exists (Nand a' a'). split; [| auto].
    change (to_nand_conv (Not a))
      with (x ← to_nand_conv a; Return (Nand x x)).
    by rewrite Ha.
  - exists (Nand (Nand a' b') (Nand a' b')). split; [| auto].
    change (to_nand_conv (And a b))
      with (x ← to_nand_conv a; y ← to_nand_conv b;
            Return (Nand (Nand x y) (Nand x y))).
    by rewrite Ha, Hb.
Qed.

Lemma to_implies_not_conv_elim (P : Formula → Formula → Prop) :
  (∀ x, is_variable x = true → P (Leaf x) (Leaf x)) →
  (∀ a a', P a a' → P (Not a) (Not a')) →
  (∀ a b a' b', P a a' → P b b' →
     P (And a b) (Not (Implies a' (Not b')))) →
  (∀ a b a' b', P a a' → P b b' → P (Or a b) (Implies (Not a') b')) →
  ∀ g, not_and_or_form g → ∃ h, to_implies_not_conv g = Return h ∧ P g h.
Proof.
  intros Hvar Hnot Hand Hor g Hg.
  induction Hg as [x Hx | a _ (a' & Ha & HPa)
                  | a b _ (a' & Ha & HPa) _ (b' & Hb & HPb)
                  | a b _ (a' & Ha & HPa) _ (b' & Hb & HPb)].
  - rewrite to_implies_not_conv_variable by done. eauto.
  - exists (Not a'). split; [| auto].
    change (to_implies_not_conv (Not a))
      with (x ← to_implies_not_conv a; Return (Not x)).
    by rewrite Ha.
  - exists (Not (Implies a' (Not b'))). split; [| auto].
    change (to_implies_not_conv (And a b))
      with (x ← to_implies_not_conv a; y ← to_implies_not_conv b;
            Return (Not (Implies x (Not y)))).
    by rewrite Ha, Hb.
  - exists (Implies (Not a') b'). split; [| auto].
    change (to_implies_not_conv (Or a b))
      with (x ← to_implies_not_conv a; y ← to_implies_not_conv b;
            Return (Implies (Not x) y)).
    by rewrite Ha, Hb.
Qed.

Lemma to_implies_false_conv_elim (P : Formula → Formula → Prop) :
  (∀ x, is_variable x = true → P (Leaf x) (Leaf x)) →
  (∀ a a', P a a' → P (Not a) (Implies a' (Leaf "F"))) →
  (∀ a b a' b', P a a' → P b b' →
     P (And a b)
       (Implies (Implies a' (Implies b' (Leaf "F"))) (Leaf "F"))) →
  (∀ a b a' b', P a a' → P b b' →
     P (Or a b) (Implies (Implies a' (Leaf "F")) b')) →
  ∀ g, not_and_or_form g →
    ∃ h, to_implies_false_conv g = Return h ∧ P g h.
Proof.
  intros Hvar Hnot Hand Hor g Hg.
  induction Hg as [x Hx | a _ (a' & Ha & HPa)
                  | a b _ (a' & Ha & HPa) _ (b' & Hb & HPb)
                  | a b _ (a' & Ha & HPa) _ (b' & Hb & HPb)].
  - rewrite to_implies_false_conv_variable by done. eauto.
  - exists (Implies a' (Leaf "F")). split; [| auto].
    change (to_implies_false_conv (Not a))
      with (x ← to_implies_false_conv a; Return (Implies x (Leaf "F"))).
    by rewrite Ha.
  - eexists. split; [| eauto].
    change (to_implies_false_conv (And a b))
      with (x ← to_implies_false_conv a; y ← to_implies_false_conv b;
            Return (Implies (Implies x (Implies y (Leaf "F"))) (Leaf "F"))).
    by rewrite Ha, Hb.
  - eexists. split; [| eauto].
    change (to_implies_false_conv (Or a b))
      with (x ← to_implies_false_conv a; y ← to_implies_false_conv b;
            Return (Implies (Implies x (Leaf "F")) y)).
    by rewrite Ha, Hb.
Qed.

(** *** Shapes of the results *)

Lemma not_and_or_form_scan g :
  not_and_or_form g →
  well_formed g = true ∧ uses_only ["~"; "&"; "|"] g = true
  ∧ has_constant g = false.
Proof.
  induction 1 as [x Hx | a _ (Ha1 & Ha2 & Ha3)
                 | a b _ (Ha1 & Ha2 & Ha3) _ (Hb1 & Hb2 & Hb3)
                 | a b _ (Ha1 & Ha2 & Ha3) _ (Hb1 & Hb2 & Hb3)];
    cbn [well_formed uses_only has_constant];
    rewrite ?Hx, ?Ha1, ?Ha2, ?Ha3, ?Hb1, ?Hb2, ?Hb3;
    rewrite ?is_variable_not_constant by done; done.
Qed.

Lemma not_and_form_scan g :
  not_and_form g →
  well_formed g = true ∧ uses_only ["~"; "&"] g = true
  ∧ has_constant g = false.
Proof.
  induction 1 as [x Hx | a _ (Ha1 & Ha2 & Ha3)
                 | a b _ (Ha1 & Ha2 & Ha3) _ (Hb1 & Hb2 & Hb3)];
    cbn [well_formed uses_only has_constant];
    rewrite ?Hx, ?Ha1, ?Ha2, ?Ha3, ?Hb1, ?Hb2, ?Hb3;
    rewrite ?is_variable_not_constant by done; done.
Qed.

Lemma to_not_and_conv_form g :
  not_and_or_form g → ∃ h, to_not_and_conv g = Return h ∧ not_and_form h.
Proof.
  apply (to_not_and_conv_elim (fun _ h => not_and_form h));
    intros; repeat constructor; auto.
Qed.

Ltac scan_node :=
  unfold scanned in *; cbn [well_formed uses_only has_constant];
  repeat match goal with
    | H : _ ∧ _ |- _ => destruct H
    | H : is_variable _ = true |- _ =>
        rewrite ?H, ?(is_variable_not_constant _ H); clear H
    | H : _ = true |- _ => rewrite ?H; clear H
    end;
  repeat split; try reflexivity;
  intros; repeat match goal with
    | H : ?c = false → _, H' : ?c = false |- _ => rewrite (H H')
    end; try reflexivity; try discriminate.

Lemma to_nand_conv_scan g :
  not_and_form g →
  ∃ h, to_nand_conv g = Return h ∧ scanned ["-&"] false h.
Proof.
  apply (to_nand_conv_elim (fun _ h => scanned ["-&"] false h));
    intros; scan_node.
Qed.

Lemma to_implies_not_conv_scan g :
  not_and_or_form g →
  ∃ h, to_implies_not_conv g = Return h ∧ scanned ["->"; "~"] false h.
Proof.
  apply (to_implies_not_conv_elim (fun _ h => scanned ["->"; "~"] false h));
    intros; scan_node.
Qed.

Lemma to_implies_false_conv_scan g :
  not_and_or_form g →
  ∃ h, to_implies_false_conv g = Return h ∧ scanned ["->"; "F"] true h.
Proof.
  apply (to_implies_false_conv_elim
           (fun _ h => scanned ["->"; "F"] true h));
    intros; scan_node.
Qed.

(** *** The second passes preserve truth values and variables *)

Lemma to_not_and_conv_evaluate g h (model : gmap string bool) :
  not_and_or_form g → to_not_and_conv g = Return h →
  evaluate h model = evaluate g model.
Proof.
  intros Hg Hh. at_result Hh. revert g Hg.
  apply to_not_and_conv_elim; try done;
    intros; evaluate_nodes;
    repeat match goal with H : evaluate _ _ = _ |- _ => rewrite H; clear H end;
    truth_table.
Qed.

Lemma to_nand_conv_evaluate g h (model : gmap string bool) :
  not_and_form g → to_nand_conv g = Return h →
  evaluate h model = evaluate g model.
Proof.
  intros Hg Hh. at_result Hh. revert g Hg.
  apply to_nand_conv_elim; try done;
    intros; evaluate_nodes;
    repeat match goal with H : evaluate _ _ = _ |- _ => rewrite H; clear H end;
    truth_table.
Qed.

Lemma to_implies_not_conv_evaluate g h (model : gmap string bool) :
  not_and_or_form g → to_implies_not_conv g = Return h →
  evaluate h model = evaluate g model.
Proof.
  intros Hg Hh. at_result Hh. revert g Hg.
  apply to_implies_not_conv_elim; try done;
    intros; evaluate_nodes;
    repeat match goal with H : evaluate _ _ = _ |- _ => rewrite H; clear H end;
    truth_table.
Qed.

Lemma to_implies_false_conv_evaluate g h (model : gmap string bool) :
  not_and_or_form g → to_implies_false_conv g = Return h →
  evaluate h model = evaluate g model.
Proof.
  intros Hg Hh. at_result Hh. revert g Hg.
  apply to_implies_false_conv_elim; try done;
    intros; evaluate_nodes;
    repeat match goal with H : evaluate _ _ = _ |- _ => rewrite H; clear H end;
    truth_table.
Qed.

Lemma variables_leaf x : is_variable x = true → variables (Leaf x) = {[ x ]}.
Proof. intros Hx. cbn [variables]. by rewrite Hx. Qed.

Ltac variables_node :=
  intros; cbn [variables];
  change (is_variable "F") with false;
  change (is_variable "T") with false;
  change (is_variable "p") with true;
  cbv iota;
  repeat match goal with
    | H : is_variable ?x = true |- _ => rewrite ?H; clear H
    end;
  repeat match goal with
    | H : variables _ = variables _ |- _ => rewrite H; clear H
    end;
  try reflexivity; set_solver.

Lemma to_not_and_or_variables f g :
  well_formed f = true → to_not_and_or f = Return g →
  variables g ⊆ variables f ∪ {[ "p" ]}.
Proof.
  intros Hwf Hg. at_result Hg. revert f Hwf.
  apply to_not_and_or_elim; variables_node.
Qed.

Lemma to_not_and_conv_variables g h :
  not_and_or_form g → to_not_and_conv g = Return h →
  variables h = variables g.
Proof.
  intros Hg Hh. at_result Hh. revert g Hg.
  apply to_not_and_conv_elim; variables_node.
Qed.

Lemma to_nand_conv_variables g h :
  not_and_form g → to_nand_conv g = Return h →
  variables h = variables g.
Proof.
  intros Hg Hh. at_result Hh. revert g Hg.
  apply to_nand_conv_elim; variables_node.
Qed.

Lemma to_implies_not_conv_variables g h :
  not_and_or_form g → to_implies_not_conv g = Return h →
  variables h = variables g.
Proof.
  intros Hg Hh. at_result Hh. revert g Hg.
  apply to_implies_not_conv_elim; variables_node.
Qed.

Lemma to_implies_false_conv_variables g h :
  not_and_or_form g → to_implies_false_conv g = Return h →
  variables h = variables g.
Proof.
  intros Hg Hh. at_result Hh. revert g Hg.
  apply to_implies_false_conv_elim; variables_node.
Qed.

(** *** Sizes *)

Lemma count_root_leaf s x :
  is_variable x = true → is_variable s = false → count_root s (Leaf x) = 0.
Proof.
  intros Hx Hs. cbn [count_root]. destruct (x =? s) eqn:E; [| done].
  apply String.eqb_eq in E. congruence.
Qed.

Ltac size_node :=
  intros; cbn [formula_size];
  repeat match goal with
    | |- context [count_root ?s (Formula0 ?x)] =>
        rewrite (count_root_leaf s x) by (assumption || reflexivity)
    | |- context [count_root ?s (Formula1 ?r ?a)] =>
        change (count_root s (Formula1 r a))
          with ((if r =? s then 1 else 0) + count_root s a)
    | |- context [count_root ?s (Formula2 ?r ?a ?b)] =>
        change (count_root s (Formula2 r a b))
          with ((if r =? s then 1 else 0) + count_root s a + count_root s b)
    end;
  cbn [String.eqb Ascii.eqb Bool.eqb];
  try lia.

Lemma to_not_and_conv_size g h :
  not_and_or_form g → to_not_and_conv g = Return h →
  formula_size h = formula_size g + 3 * count_root "|" g.
Proof.
  intros Hg Hh. at_result Hh. revert g Hg.
  apply to_not_and_conv_elim; size_node.
Qed.

Lemma to_implies_not_conv_size g h :
  not_and_or_form g → to_implies_not_conv g = Return h →
  formula_size h
  = formula_size g + count_root "|" g + 2 * count_root "&" g.
Proof.
  intros Hg Hh. at_result Hh. revert g Hg.
  apply to_implies_not_conv_elim; size_node.
Qed.

Lemma to_implies_false_conv_size g h :
  not_and_or_form g → to_implies_false_conv g = Return h →
  formula_size h
  = formula_size g + count_root "~" g
    + 2 * count_root "|" g + 4 * count_root "&" g.
Proof.
  intros Hg Hh. at_result Hh. revert g Hg.
  apply to_implies_false_conv_elim; size_node.
Qed.

Lemma has_xor_or_iff_binary op a b :
  has_xor_or_iff (Formula2 op a b) = false →
  op ≠ "+" ∧ op ≠ "<->"
  ∧ has_xor_or_iff a = false ∧ has_xor_or_iff b = false.
Proof.
  cbn [has_xor_or_iff]. intros H.
  repeat (apply orb_false_iff in H; destruct H as [H ?]).
  apply String.eqb_neq in H. repeat split; try done.
  by apply String.eqb_neq.
Qed.

(** Without xor and iff every input node accounts for a bounded number of
    nodes of the base result, also when the nodes a second pass will expand
    are weighted by that expansion. *)
Lemma to_not_and_or_size f g :
  well_formed f = true → to_not_and_or f = Return g →
  has_xor_or_iff f = false →
  (formula_size g ≤ 4 * formula_size f
   ∧ formula_size g + 3 * count_root "|" g ≤ 7 * formula_size f
   ∧ formula_size g + count_root "|" g + 2 * count_root "&" g
     ≤ 6 * formula_size f
   ∧ formula_size g + count_root "~" g
     + 2 * count_root "|" g + 4 * count_root "&" g
     ≤ 9 * formula_size f)%nat.
Proof.
  intros Hwf Hg. at_result Hg. revert f Hwf.
  apply to_not_and_or_elim.
  1-3: size_node.
  - intros a a' IH Hx. cbn [has_xor_or_iff] in Hx. specialize (IH Hx).
    size_node.
  - intros a b a' b' IHa IHb (_ & _ & Ha & Hb)%has_xor_or_iff_binary.
    specialize (IHa Ha). specialize (IHb Hb). size_node.
  - intros a b a' b' IHa IHb (_ & _ & Ha & Hb)%has_xor_or_iff_binary.
    specialize (IHa Ha). specialize (IHb Hb). size_node.
  - intros a b a' b' IHa IHb (_ & _ & Ha & Hb)%has_xor_or_iff_binary.
    specialize (IHa Ha). specialize (IHb Hb). size_node.
  - intros a b a' b' _ _ (Hx & _)%has_xor_or_iff_binary. done.
  - intros a b a' b' _ _ (_ & Hx & _)%has_xor_or_iff_binary. done.
  - intros a b a' b' IHa IHb (_ & _ & Ha & Hb)%has_xor_or_iff_binary.
    specialize (IHa Ha). specialize (IHb Hb). size_node.
  - intros a b a' b' IHa IHb (_ & _ & Ha & Hb)%has_xor_or_iff_binary.
    specialize (IHa Ha). specialize (IHb Hb). size_node.
Qed.

(** ** Models *)

(** A model that covers the variables of a well-formed formula gives it a
    truth value. *)
Lemma evaluate_total f (model : gmap string bool) :
  well_formed f = true → variables f ⊆ dom model →
  is_Some (evaluate f model).
Proof.
  intros Hwf. revert f Hwf. apply (well_formed_ind
    (fun f => variables f ⊆ dom model → is_Some (evaluate f model))).
  - intros x Hx Hsub. rewrite evaluate_variable by done.
    rewrite variables_leaf in Hsub by done.
    apply elem_of_dom. set_solver.
  - by eexists.
  - by eexists.
  - intros a _ IH Hsub. rewrite evaluate_not.
    destruct IH as [v ->]; [done | by eexists].
  - intros op a b Hop _ _ IHa IHb Hsub. cbn [variables] in Hsub.
    rewrite evaluate_binary_node.
    destruct IHa as [x ->]; [set_solver |].
    destruct IHb as [y ->]; [set_solver |].
    cbn in Hop.
    destruct Hop as [<- | [<- | [<- | [<- | [<- | [<- | [<- | []]]]]]]];
      by eexists.
Qed.

(** Enlarging the model does not change a truth value already defined. *)
Lemma evaluate_weaken f (model model' : gmap string bool) v :
  model ⊆ model' → evaluate f model = Some v → evaluate f model' = Some v.
Proof.
  intros Hsub. revert v.
  induction f as [r | r a IHa | r a IHa b IHb]; intros v; cbn [evaluate].
  - destruct (is_constant r); [done |].
    destruct (is_variable r); [| done].
    intros Hv. by apply (lookup_weaken model).
  - destruct (is_unary r); [| done].
    destruct (evaluate a model) as [x |]; [| done].
    by rewrite (IHa x).
  - destruct (evaluate a model) as [x |]; [| done].
    destruct (evaluate b model) as [y |]; [| done].
    by rewrite (IHa x), (IHb y).
Qed.

(** ** The pipelines on well-formed input *)

Lemma to_not_and_chain f :
  well_formed f = true →
  ∃ g h, to_not_and_or f = Return g ∧ not_and_or_form g
         ∧ to_not_and_conv g = Return h ∧ not_and_form h
         ∧ to_not_and f = Return h.
Proof.
  intros Hwf.
  destruct (to_not_and_or_form f Hwf) as (g & Hg & Hform).
  destruct (to_not_and_conv_form g Hform) as (h & Hh & Hform').
  exists g, h. repeat split; try done.
  unfold to_not_and. by rewrite Hg.
Qed.

Lemma to_nand_chain f :
  well_formed f = true →
  ∃ g h k, to_not_and_or f = Return g ∧ not_and_or_form g
           ∧ to_not_and_conv g = Return h ∧ not_and_form h
           ∧ to_not_and f = Return h
           ∧ to_nand_conv h = Return k ∧ scanned ["-&"] false k
           ∧ to_nand f = Return k.
Proof.
  intros Hwf.
  destruct (to_not_and_chain f Hwf) as (g & h & Hg & Hgf & Hh & Hhf & Hna).
  destruct (to_nand_conv_scan h Hhf) as (k & Hk & Hscan).
  exists g, h, k. repeat split; try done; try apply Hscan.
  unfold to_nand. by rewrite Hna.
Qed.

Lemma to_implies_not_chain f :
  well_formed f = true →
  ∃ g h, to_not_and_or f = Return g ∧ not_and_or_form g
         ∧ to_implies_not_conv g = Return h
         ∧ scanned ["->"; "~"] false h
         ∧ to_implies_not f = Return h.
Proof.
  intros Hwf.
  destruct (to_not_and_or_form f Hwf) as (g & Hg & Hform).
  destruct (to_implies_not_conv_scan g Hform) as (h & Hh & Hscan).
  exists g, h. repeat split; try done; try apply Hscan.
  unfold to_implies_not. by rewrite Hg.
Qed.

Lemma to_implies_false_chain f :
  well_formed f = true →
  ∃ g h, to_not_and_or f = Return g ∧ not_and_or_form g
         ∧ to_implies_false_conv g = Return h
         ∧ scanned ["->"; "F"] true h
         ∧ to_implies_false f = Return h.
Proof.
  intros Hwf.
  destruct (to_not_and_or_form f Hwf) as (g & Hg & Hform).
  destruct (to_implies_false_conv_scan g Hform) as (h & Hh & Hscan).
  exists g, h. repeat split; try done; try apply Hscan.
  unfold to_implies_false. by rewrite Hg.
Qed.

(** Every reducer returns, and its result has the truth value of the input
    in every model that gives the placeholder [p] a value. *)
Lemma reduce_evaluate r f (model : gmap string bool) :
  well_formed f = true → is_Some (model !! "p") →
  ∃ g, reduce r f = Return g ∧ evaluate g model = evaluate f model.
Proof.
  intros Hwf Hp.
  destruct (to_not_and_or_evaluate f model Hwf Hp) as (g0 & Hg0 & Hev0).
  destruct r; cbn [reduce].
  - eauto.
  - destruct (to_not_and_chain f Hwf) as (g & h & Hg & Hgf & Hh & _ & Hr).
    exists h. split; [done |].
    rewrite (to_not_and_conv_evaluate g h) by done. congruence.
  - destruct (to_nand_chain f Hwf)
      as (g & h & k & Hg & Hgf & Hh & Hhf & _ & Hk & _ & Hr).
    exists k. split; [done |].
    rewrite (to_nand_conv_evaluate h k) by done.
    rewrite (to_not_and_conv_evaluate g h) by done. congruence.
  - destruct (to_implies_not_chain f Hwf) as (g & h & Hg & Hgf & Hh & _ & Hr).
    exists h. split; [done |].
    rewrite (to_implies_not_conv_evaluate g h) by done. congruence.
  - destruct (to_implies_false_chain f Hwf)
      as (g & h & Hg & Hgf & Hh & _ & Hr).
    exists h. split; [done |].
    rewrite (to_implies_false_conv_evaluate g h) by done. congruence.
Qed.

Lemma reduce_evaluates_to r f (model model' : gmap string bool) :
  well_formed f = true → variables f ⊆ dom model →
  model ⊆ model' → "p" ∈ dom model' →
  ∃ v, evaluate f model = Some v ∧ evaluates_to (reduce r f) model' v.
Proof.
  intros Hwf Hvars Hsub Hp.
  destruct (evaluate_total f model Hwf Hvars) as [v Hv].
  exists v. split; [done |].
  apply elem_of_dom in Hp.
  destruct (reduce_evaluate r f model' Hwf Hp) as (g & Hg & Hev).
  exists g. split; [done |].
  rewrite Hev. by apply (evaluate_weaken f model).
Qed.

(** ** Failure *)

Lemma bind_Raise {A B} e (k : A → result B) : Raise e ≫= k = Raise e.
Proof. reflexivity. Qed.

Lemma is_binary_false r :
  is_binary r = false →
  (r =? "&") = false ∧ (r =? "|") = false ∧ (r =? "->") = false
  ∧ (r =? "+") = false ∧ (r =? "<->") = false ∧ (r =? "-&") = false
  ∧ (r =? "-|") = false.
Proof.
  unfold is_binary. cbn [existsb binary_operators]. intros H.
  repeat (apply orb_false_iff in H; destruct H as [? H]). done.
Qed.

(** The two-child case of [to_not_and_or], for any symbol that is neither a
    variable, a constant nor [~]. *)
Lemma to_not_and_or_binary r a b :
  is_variable r = false → is_constant r = false → is_unary r = false →
  to_not_and_or (Formula2 r a b) =
  a' ← to_not_and_or a; b' ← to_not_and_or b;
  if (r =? "&") || (r =? "|") then Return (Formula2 r a' b')
  else if r =? "->" then Return (Or (Not a') b')
  else if r =? "+" then Return (Or (And a' (Not b')) (And (Not a') b'))
  else if r =? "<->" then Return (Or (And a' b') (And (Not a') (Not b')))
  else if r =? "-&" then Return (Not (And a' b'))
  else if r =? "-|" then Return (Not (Or a' b'))
  else Raise (ValueError ("Unknown operator: " ++ r)).
Proof.
  intros Hv Hc Hu. cbn [to_not_and_or root]. by rewrite Hv, Hc, Hu.
Qed.

Lemma well_formed_arity_respected f :
  well_formed f = true → arity_respected f = true.
Proof.
  revert f.
  apply (well_formed_ind (fun f => arity_respected f = true)).
  - intros x Hx. cbn [arity_respected]. by rewrite Hx.
  - reflexivity.
  - reflexivity.
  - intros a _ IH. cbn [arity_respected]. by rewrite IH.
  - intros op a b Hop _ _ IHa IHb. cbn [arity_respected].
    rewrite IHa, IHb. cbn in Hop.
    by destruct Hop as [<- | [<- | [<- | [<- | [<- | [<- | [<- | []]]]]]]].
Qed.

(** On a tree that respects arities the base converter fails exactly when
    the tree is not well-formed, and then with the [ValueError] of a symbol
    found on one of the tree's two-child nodes. *)
Lemma to_not_and_or_failure f :
  arity_respected f = true →
  well_formed f = false →
  ∃ op, In op (binary_roots f) ∧ is_binary op = false
        ∧ to_not_and_or f = Raise (ValueError ("Unknown operator: " ++ op)).
Proof.
  induction f as [r | r a IHa | r a IHa b IHb];
    cbn [arity_respected well_formed binary_roots].
  - congruence.
  - intros [Hu Ha]%andb_true_iff Hwf. rewrite Hu in Hwf.
    destruct (IHa Ha Hwf) as (op & Hin & Hop & Hraise).
    exists op. repeat split; try done.
    apply is_unary_eq in Hu. subst r.
    by rewrite to_not_and_or_not, Hraise.
  - intros [[Hr Ha]%andb_true_iff Hb]%andb_true_iff Hwf.
    apply negb_true_iff in Hr.
    apply orb_false_iff in Hr. destruct Hr as [Hr Hu].
    apply orb_false_iff in Hr. destruct Hr as [Hv Hc].
    rewrite to_not_and_or_binary by done.
    destruct (well_formed a) eqn:Hwa.
    + destruct (to_not_and_or_total a Hwa) as (a' & ->).
      rewrite bind_Return.
      destruct (well_formed b) eqn:Hwb.
      * destruct (to_not_and_or_total b Hwb) as (b' & ->).
        rewrite bind_Return.
        rewrite !andb_true_r in Hwf.
        exists r. split; [by left |]. split; [done |].
        destruct (is_binary_false r Hwf)
          as (-> & -> & -> & -> & -> & -> & ->).
        done.
      * destruct (IHb Hb eq_refl) as (op & Hin & Hop & ->).
        exists op. repeat split; try done.
        right. apply in_or_app. by right.
    + destruct (IHa Ha eq_refl) as (op & Hin & Hop & ->).
      exists op. repeat split; try done.
      right. apply in_or_app. by left.
Qed.

Lemma reduce_total r f :
  well_formed f = true → ∃ g, reduce r f = Return g.
Proof.
  intros Hwf. destruct r; cbn [reduce].
  - by apply to_not_and_or_total.
  - destruct (to_not_and_chain f Hwf) as (g & h & H). exists h. apply H.
  - destruct (to_nand_chain f Hwf) as (g & h & k & H). exists k. apply H.
  - destruct (to_implies_not_chain f Hwf) as (g & h & H). exists h. apply H.
  - destruct (to_implies_false_chain f Hwf) as (g & h & H).
    exists h. apply H.
Qed.

(** A failure of the base pass is the failure of the whole pipeline. *)
Lemma reduce_propagates r f e :
  to_not_and_or f = Raise e → reduce r f = Raise e.
Proof.
  intros H. destruct r; cbn [reduce]; try done;
    unfold to_nand, to_not_and, to_implies_not, to_implies_false;
    by rewrite H.
Qed.

(** Inside the base pass, the failure of a child is the failure of the
    node: nothing is built once a recursive call has raised. *)
Lemma to_not_and_or_child_failure a e :
  to_not_and_or a = Raise e →
  to_not_and_or (Not a) = Raise e
  ∧ ∀ r b, is_variable r = false → is_constant r = false →
           is_unary r = false →
           to_not_and_or (Formula2 r a b) = Raise e
           ∧ ∀ g, to_not_and_or b = Return g →
                  to_not_and_or (Formula2 r b a) = Raise e.
Proof.
  intros H. split; [by rewrite to_not_and_or_not, H |].
  intros r b Hv Hc Hu. rewrite !to_not_and_or_binary by done.
  split; [by rewrite H |]. intros g ->. by rewrite H.
Qed.

(** ** Inputs already in not-and-or form, and inputs without constants *)

Lemma not_and_or_form_fixed g :
  not_and_or_form g → to_not_and_or g = Return g.
Proof.
  induction 1 as [x Hx | a _ IHa | a b _ IHa _ IHb | a b _ IHa _ IHb].
  - by apply to_not_and_or_variable.
  - by rewrite to_not_and_or_not, IHa.
  - by rewrite to_not_and_or_and, IHa, IHb.
  - by rewrite to_not_and_or_or, IHa, IHb.
Qed.

Lemma scan_not_and_or_form f :
  well_formed f = true → uses_only ["~"; "&"; "|"] f = true →
  not_and_or_form f.
Proof.
  revert f. apply (well_formed_ind
    (fun f => uses_only ["~"; "&"; "|"] f = true → not_and_or_form f)).
  - intros x Hx _. by constructor.
  - discriminate.
  - discriminate.
  - intros a _ IH Hscan. constructor. apply IH.
    cbn [uses_only] in Hscan. by apply andb_true_iff in Hscan as [_ ?].
  - intros op a b Hop _ _ IHa IHb Hscan. cbn [uses_only] in Hscan.
    apply andb_true_iff in Hscan as [Hscan Hb].
    apply andb_true_iff in Hscan as [Hin Ha].
    cbn in Hop.
    destruct Hop as [<- | [<- | [<- | [<- | [<- | [<- | [<- | []]]]]]]];
      try discriminate; constructor; auto.
Qed.

Lemma uses_only_no_constant ops f :
  existsb (String.eqb "T") ops = false →
  existsb (String.eqb "F") ops = false →
  uses_only ops f = true → has_constant f = false.
Proof.
  intros HT HF.
  assert (Hroot : ∀ r, existsb (String.eqb r) ops = true →
                       is_constant r = false).
  { intros r Hr. destruct (is_constant r) eqn:Hc; [| done].
    destruct (is_constant_cases r Hc); subst; congruence. }
  induction f as [r | r a IHa | r a IHa b IHb];
    cbn [uses_only has_constant].
  - intros [Hv | Hr]%orb_true_iff;
      [by apply is_variable_not_constant | by apply Hroot].
  - intros [Hr Ha]%andb_true_iff. by rewrite (Hroot r Hr), IHa.
  - intros [[Hr Ha]%andb_true_iff Hb]%andb_true_iff.
    by rewrite (Hroot r Hr), IHa, IHb.
Qed.

(** Without constants in the input no placeholder is introduced: the base
    result has the variables of the input and its truth value in every
    model. *)
Lemma to_not_and_or_no_constant f g :
  well_formed f = true → to_not_and_or f = Return g →
  has_constant f = false →
  variables g = variables f
  ∧ ∀ model : gmap string bool, evaluate g model = evaluate f model.
Proof.
  intros Hwf Hg. at_result Hg. revert f Hwf.
  apply to_not_and_or_elim; try done;
    intros; cbn [has_constant] in *;
    repeat match goal with
      | H : _ || _ = false |- _ =>
          apply orb_false_iff in H; destruct H
      | H : ?c → _, H' : ?c |- _ => specialize (H H'); destruct H
      end;
    (split; [variables_node |]);
    intros; evaluate_nodes;
    repeat match goal with
      | H : ∀ m : gmap string bool, evaluate _ m = _ |- _ =>
          rewrite H; clear H
      end;
    truth_table.
Qed.

(** The stages a reducer goes through on a well-formed input: the base
    result [g], in not-and-or form, and the final result [h], which the
    second passes relate to [g] by truth value and by variables. *)
Lemma reduce_stages r f :
  well_formed f = true →
  ∃ g h, to_not_and_or f = Return g ∧ not_and_or_form g
         ∧ reduce r f = Return h
         ∧ variables h = variables g
         ∧ ∀ model : gmap string bool, evaluate h model = evaluate g model.
Proof.
  intros Hwf. destruct r; cbn [reduce].
  - destruct (to_not_and_or_form f Hwf) as (g & Hg & Hgf).
    by exists g, g.
  - destruct (to_not_and_chain f Hwf) as (g & h & Hg & Hgf & Hh & _ & Hr).
    exists g, h. repeat split; try done.
    + by apply to_not_and_conv_variables.
    + intros model. by apply to_not_and_conv_evaluate.
  - destruct (to_nand_chain f Hwf)
      as (g & h & k & Hg & Hgf & Hh & Hhf & _ & Hk & _ & Hr).
    exists g, k. repeat split; try done.
    + rewrite (to_nand_conv_variables h k) by done.
      by apply to_not_and_conv_variables.
    + intros model. rewrite (to_nand_conv_evaluate h k) by done.
      by apply to_not_and_conv_evaluate.
  - destruct (to_implies_not_chain f Hwf) as (g & h & Hg & Hgf & Hh & _ & Hr).
    exists g, h. repeat split; try done.
    + by apply to_implies_not_conv_variables.
    + intros model. by apply to_implies_not_conv_evaluate.
  - destruct (to_implies_false_chain f Hwf)
      as (g & h & Hg & Hgf & Hh & _ & Hr).
    exists g, h. repeat split; try done.
    + by apply to_implies_false_conv_variables.
    + intros model. by apply to_implies_false_conv_evaluate.
Qed.

Lemma reduce_variables r f h :
  well_formed f = true → reduce r f = Return h →
  variables h ⊆ variables f ∪ {[ "p" ]}.
Proof.
  intros Hwf Hh.
  destruct (reduce_stages r f Hwf) as (g & h' & Hg & _ & Hh' & Hv & _).
  assert (h' = h) as -> by congruence.
  rewrite Hv. by apply to_not_and_or_variables.
Qed.

Lemma reduce_no_constant r f h :
  well_formed f = true → has_constant f = false →
  reduce r f = Return h →
  variables h = variables f
  ∧ ∀ model : gmap string bool, evaluate h model = evaluate f model.
Proof.
  intros Hwf Hc Hh.
  destruct (reduce_stages r f Hwf) as (g & h' & Hg & _ & Hh' & Hv & Hev).
  assert (h' = h) as -> by congruence.
  destruct (to_not_and_or_no_constant f g Hwf Hg Hc) as [Hv' Hev'].
  split; [congruence |]. intros model. by rewrite Hev, Hev'.
Qed.

(** What the structural scan of a reducer's result finds. *)
Lemma reduce_scan r f :
  well_formed f = true →
  ∃ h, reduce r f = Return h
       ∧ well_formed h = true
       ∧ uses_only (guaranteed_operators r) h = true
       ∧ (r ≠ ToImpliesFalse → has_constant h = false).
Proof.
  intros Hwf. destruct r; cbn [reduce guaranteed_operators].
  - destruct (to_not_and_or_form f Hwf) as (g & Hg & Hgf).
    destruct (not_and_or_form_scan g Hgf) as (? & ? & ?). by exists g.
  - destruct (to_not_and_chain f Hwf) as (g & h & _ & _ & _ & Hhf & Hr).
    destruct (not_and_form_scan h Hhf) as (? & ? & ?). by exists h.
  - destruct (to_nand_chain f Hwf)
      as (g & h & k & _ & _ & _ & _ & _ & _ & (? & ? & Hc) & Hr).
    exists k. repeat split; try done. intros _. by apply Hc.
  - destruct (to_implies_not_chain f Hwf)
      as (g & h & _ & _ & _ & (? & ? & Hc) & Hr).
    exists h. repeat split; try done. intros _. by apply Hc.
  - destruct (to_implies_false_chain f Hwf)
      as (g & h & _ & _ & _ & (? & ? & Hc) & Hr).
    exists h. repeat split; try done.
Qed.

(** Sizes of the results on inputs without xor and iff. *)
Lemma reduce_size r f h :
  well_formed f = true → has_xor_or_iff f = false →
  reduce r f = Return h →
  match r with
  | ToNotAndOr => (formula_size h ≤ 4 * formula_size f)%nat
  | ToNotAnd => (formula_size h ≤ 7 * formula_size f)%nat
  | ToNand => True
  | ToImpliesNot => (formula_size h ≤ 6 * formula_size f)%nat
  | ToImpliesFalse => (formula_size h ≤ 9 * formula_size f)%nat
  end.
Proof.
  intros Hwf Hx Hh.
  destruct (to_not_and_or_form f Hwf) as (g & Hg & Hgf).
  destruct (to_not_and_or_size f g Hwf Hg Hx) as (H4 & H7 & H6 & H9).
  destruct r; cbn [reduce] in Hh; [congruence | | done | |].
  - unfold to_not_and in Hh. rewrite Hg in Hh.
    rewrite (to_not_and_conv_size g h Hgf Hh). lia.
  - unfold to_implies_not in Hh. rewrite Hg in Hh.
    rewrite (to_implies_not_conv_size g h Hgf Hh). lia.
  - unfold to_implies_false in Hh. rewrite Hg in Hh.
    rewrite (to_implies_false_conv_size g h Hgf Hh). lia.
Qed.

(** * The claims *)

(** C1 (semantic equivalence).  For every well-formed formula [f], every
    model [model] over the variables of [f], and every extension [model']
    of it that fixes the placeholder [p] (arbitrarily, when [model] does not
    mention it), each of the five reducers returns a formula whose truth
    value in [model'] is the truth value of [f] in [model]. *)
Theorem semantic_equivalence (r : reducer) (f : Formula)
    (model model' : gmap string bool) :
  well_formed f = true → variables f ⊆ dom model →
  model ⊆ model' → "p" ∈ dom model' →
  ∃ v, evaluate f model = Some v ∧ evaluates_to (reduce r f) model' v.
Proof. apply reduce_evaluates_to. Qed.

Lemma semantic_equivalence_witness :
  ∃ v, evaluate (Formula2 "+" (Leaf "q") (Leaf "T")) {[ "q" := true ]}
       = Some v
     ∧ evaluates_to (reduce ToNand (Formula2 "+" (Leaf "q") (Leaf "T")))
         (<[ "p" := false ]> {[ "q" := true ]}) v.
Proof.
  apply (semantic_equivalence ToNand (Formula2 "+" (Leaf "q") (Leaf "T"))
           {[ "q" := true ]} (<[ "p" := false ]> {[ "q" := true ]})).
  - reflexivity.
  - vm_compute variables. rewrite dom_singleton_L. set_solver.
  - apply insert_subseteq. reflexivity.
  - rewrite dom_insert_L. set_solver.
Defined.

(** C2 (operator-set containment).  On a well-formed input every reducer
    returns a well-formed tree in which every node is a variable or carries
    a symbol of the reducer's guaranteed set: no constant and no other
    operator for [to_not_and_or]; only [~] and [&] for [to_not_and]; only
    [-&] for [to_nand]; only [->] and [~] for [to_implies_not]; only [->]
    and [F] for [to_implies_false]. *)
Theorem operator_set_containment (r : reducer) (f : Formula) :
  well_formed f = true →
  ∃ h, reduce r f = Return h
       ∧ well_formed h = true
       ∧ uses_only (guaranteed_operators r) h = true.
Proof.
  intros Hwf. destruct (reduce_scan r f Hwf) as (h & Hh & Hw & Hs & _).
  by exists h.
Qed.

Lemma operator_set_containment_witness :
  ∃ h, reduce ToImpliesFalse
         (Formula2 "<->" (Leaf "x1") (Not (Leaf "T"))) = Return h
       ∧ well_formed h = true
       ∧ uses_only (guaranteed_operators ToImpliesFalse) h = true.
Proof.
  apply (operator_set_containment ToImpliesFalse
           (Formula2 "<->" (Leaf "x1") (Not (Leaf "T")))).
  reflexivity.
Defined.

(** C3 (failure).  On a well-formed tree no reducer raises.  On a tree
    that respects arities but is not well-formed (some two-child node
    carries a symbol outside the known set) every reducer raises the
    [ValueError] of such a symbol, and that is the only failure: the
    exception of the base pass is the outcome of the whole reducer, no tree
    is returned. *)
Theorem only_unknown_operator_fails (r : reducer) (f : Formula) :
  arity_respected f = true →
  (well_formed f = true → ∃ h, reduce r f = Return h)
  ∧ (well_formed f = false →
     ∃ op, In op (binary_roots f) ∧ is_binary op = false
           ∧ reduce r f = Raise (ValueError ("Unknown operator: " ++ op)))
  ∧ (∀ e, to_not_and_or f = Raise e → reduce r f = Raise e).
Proof.
  intros Harity. split; [| split].
  - apply reduce_total.
  - intros Hwf.
    destruct (to_not_and_or_failure f Harity Hwf) as (op & Hin & Hop & He).
    exists op. repeat split; try done. by apply reduce_propagates.
  - intros e. apply reduce_propagates.
Qed.

Lemma only_unknown_operator_fails_witness :
  (well_formed (And (Leaf "p") (Formula2 "=>" (Leaf "q") (Leaf "T"))) = true →
   ∃ h, reduce ToNand (And (Leaf "p") (Formula2 "=>" (Leaf "q") (Leaf "T")))
        = Return h)
  ∧ (well_formed (And (Leaf "p") (Formula2 "=>" (Leaf "q") (Leaf "T")))
     = false →
     ∃ op, In op (binary_roots
                    (And (Leaf "p") (Formula2 "=>" (Leaf "q") (Leaf "T"))))
           ∧ is_binary op = false
           ∧ reduce ToNand
               (And (Leaf "p") (Formula2 "=>" (Leaf "q") (Leaf "T")))
             = Raise (ValueError ("Unknown operator: " ++ op)))
  ∧ (∀ e, to_not_and_or
            (And (Leaf "p") (Formula2 "=>" (Leaf "q") (Leaf "T"))) = Raise e →
          reduce ToNand
            (And (Leaf "p") (Formula2 "=>" (Leaf "q") (Leaf "T"))) = Raise e).
Proof.
  apply (only_unknown_operator_fails ToNand
           (And (Leaf "p") (Formula2 "=>" (Leaf "q") (Leaf "T")))).
  reflexivity.
Defined.

(** What the failing run of the witness above looks like. *)
Example unknown_operator_run :
  to_nand (And (Leaf "p") (Formula2 "=>" (Leaf "q") (Leaf "T")))
  = Raise (ValueError "Unknown operator: =>").
Proof. reflexivity. Qed.

(** C4 (size), as amended.  On a well-formed input without xor and iff, of
    any depth, the result has at most 8 times the nodes of the input for
    [to_not_and_or], [to_not_and] and [to_implies_not], and at most 9 times
    for [to_implies_false]. *)
Theorem size_bound_without_xor_iff (f : Formula) :
  well_formed f = true → has_xor_or_iff f = false →
  (∃ h, to_not_and_or f = Return h
        ∧ formula_size h ≤ 8 * formula_size f)%nat
  ∧ (∃ h, to_not_and f = Return h
          ∧ formula_size h ≤ 8 * formula_size f)%nat
  ∧ (∃ h, to_implies_not f = Return h
          ∧ formula_size h ≤ 8 * formula_size f)%nat
  ∧ (∃ h, to_implies_false f = Return h
          ∧ formula_size h ≤ 9 * formula_size f)%nat.
Proof.
  intros Hwf Hx.
  destruct (reduce_total ToNotAndOr f Hwf) as (h1 & H1).
  destruct (reduce_total ToNotAnd f Hwf) as (h2 & H2).
  destruct (reduce_total ToImpliesNot f Hwf) as (h3 & H3).
  destruct (reduce_total ToImpliesFalse f Hwf) as (h4 & H4).
  pose proof (reduce_size ToNotAndOr f h1 Hwf Hx H1) as S1.
  pose proof (reduce_size ToNotAnd f h2 Hwf Hx H2) as S2.
  pose proof (reduce_size ToImpliesNot f h3 Hwf Hx H3) as S3.
  pose proof (reduce_size ToImpliesFalse f h4 Hwf Hx H4) as S4.
  cbn [reduce] in *. cbv beta iota in S1, S2, S3, S4.
  repeat split; eexists; (split; [eassumption | lia]).
Qed.

Lemma size_bound_without_xor_iff_witness :
  (∃ h, to_not_and_or (Formula2 "-|" (Leaf "F") (Not (Leaf "q")))
        = Return h
        ∧ formula_size h
          ≤ 8 * formula_size (Formula2 "-|" (Leaf "F") (Not (Leaf "q"))))%nat
  ∧ (∃ h, to_not_and (Formula2 "-|" (Leaf "F") (Not (Leaf "q")))
          = Return h
          ∧ formula_size h
            ≤ 8 * formula_size
                    (Formula2 "-|" (Leaf "F") (Not (Leaf "q"))))%nat
  ∧ (∃ h, to_implies_not (Formula2 "-|" (Leaf "F") (Not (Leaf "q")))
          = Return h
          ∧ formula_size h
            ≤ 8 * formula_size
                    (Formula2 "-|" (Leaf "F") (Not (Leaf "q"))))%nat
  ∧ (∃ h, to_implies_false (Formula2 "-|" (Leaf "F") (Not (Leaf "q")))
          = Return h
          ∧ formula_size h
            ≤ 9 * formula_size
                    (Formula2 "-|" (Leaf "F") (Not (Leaf "q"))))%nat.
Proof.
  apply (size_bound_without_xor_iff
           (Formula2 "-|" (Leaf "F") (Not (Leaf "q"))));
    reflexivity.
Defined.

(** C4 as stated fails: a chain of three xors has depth 3 and 7 nodes, and
    [to_not_and_or] returns a tree of 57 nodes for it. *)
Lemma size_bound_counterexample :
  ¬ (∀ r f, well_formed f = true → (formula_depth f ≤ 10)%nat →
            ∃ h, reduce r f = Return h
                 ∧ (formula_size h ≤ 8 * formula_size f)%nat).
Proof.
  intros H.
  destruct (H ToNotAndOr
              (Formula2 "+"
                 (Formula2 "+" (Formula2 "+" (Leaf "p") (Leaf "q"))
                    (Leaf "q"))
                 (Leaf "q")))
    as (h & Hh & Hsize).
  - reflexivity.
  - cbn [formula_depth Nat.max]. lia.
  - vm_compute in Hh. injection Hh as <-.
    apply Nat.leb_le in Hsize. vm_compute in Hsize. discriminate.
Qed.

(** Why the amended bound leaves [to_nand] out and allows 9 for
    [to_implies_false]: [to_nand] doubles the tree at every [~], and
    [to_implies_false] turns the single node [F] into nine. *)
Example to_nand_doubles :
  ∃ h, to_nand (Not (Not (Not (Not (Not (Leaf "p")))))) = Return h
       ∧ formula_size h = 63%nat.
Proof. eexists. split; reflexivity. Qed.

Example to_implies_false_F :
  ∃ h, to_implies_false (Leaf "F") = Return h ∧ formula_size h = 9%nat.
Proof. eexists. split; reflexivity. Qed.

(** C5 (the constant [T] under [to_implies_false]), as amended.  The base
    pass has replaced [T] by [(p|~p)] before the second pass runs, so the
    result is [((p->F)->(p->F))]; it is true in every model that gives [p] a
    value, as [(F->F)] is. *)
Theorem to_implies_false_T (model : gmap string bool) :
  is_Some (model !! "p") →
  to_implies_false (Leaf "T")
  = Return (Implies (Implies (Leaf "p") (Leaf "F"))
                    (Implies (Leaf "p") (Leaf "F")))
  ∧ evaluates_to (to_implies_false (Leaf "T")) model true
  ∧ evaluate (Implies (Leaf "F") (Leaf "F")) model = Some true.
Proof.
  intros [v Hp]. split; [reflexivity |]. split; [| reflexivity].
  eexists. split; [reflexivity |].
  evaluate_nodes. rewrite Hp. by destruct v.
Qed.

Lemma to_implies_false_T_witness :
  to_implies_false (Leaf "T")
  = Return (Implies (Implies (Leaf "p") (Leaf "F"))
                    (Implies (Leaf "p") (Leaf "F")))
  ∧ evaluates_to (to_implies_false (Leaf "T")) {[ "p" := false ]} true
  ∧ evaluate (Implies (Leaf "F") (Leaf "F")) {[ "p" := false ]} = Some true.
Proof.
  apply (to_implies_false_T {[ "p" := false ]}).
  exists false. reflexivity.
Defined.

(** C5 as stated fails: the result for [T] is not the tree [(F->F)]. *)
Lemma to_implies_false_T_counterexample :
  to_implies_false (Leaf "T") ≠ Return (Implies (Leaf "F") (Leaf "F")).
Proof. vm_compute. discriminate. Qed.

(** C6 (inputs already within the guaranteed set).  When every operator
    of a well-formed input already lies in the reducer's guaranteed set, the
    result has the truth value of the input in every model over the input's
    variables that is extended by a value for [p]; for every reducer but
    [to_implies_false], whose set holds the constant [F], the result also
    has exactly the variables of the input and the same truth value in the
    unextended model. *)
Theorem stable_set_same_truth_table (r : reducer) (f : Formula)
    (model model' : gmap string bool) :
  well_formed f = true →
  uses_only (guaranteed_operators r) f = true →
  variables f ⊆ dom model → model ⊆ model' → "p" ∈ dom model' →
  ∃ h v, reduce r f = Return h
         ∧ evaluate f model = Some v
         ∧ evaluate h model' = Some v
         ∧ (r ≠ ToImpliesFalse →
            variables h = variables f ∧ evaluate h model = Some v).
Proof.
  intros Hwf Hscan Hvars Hsub Hp.
  destruct (reduce_evaluates_to r f model model' Hwf Hvars Hsub Hp)
    as (v & Hv & h & Hh & Hev).
  exists h, v. repeat split; try done.
  - assert (has_constant f = false) as Hc.
    { apply (uses_only_no_constant (guaranteed_operators r)); [| | done];
        by destruct r. }
    by apply (reduce_no_constant r).
  - assert (has_constant f = false) as Hc.
    { apply (uses_only_no_constant (guaranteed_operators r)); [| | done];
        by destruct r. }
    destruct (reduce_no_constant r f h Hwf Hc Hh) as [_ ->]. done.
Qed.

Lemma stable_set_same_truth_table_witness :
  ∃ h v, reduce ToNand (Nand (Leaf "q") (Nand (Leaf "q") (Leaf "r")))
         = Return h
         ∧ evaluate (Nand (Leaf "q") (Nand (Leaf "q") (Leaf "r")))
             (<[ "r" := false ]> {[ "q" := true ]}) = Some v
         ∧ evaluate h
             (<[ "p" := true ]> (<[ "r" := false ]> {[ "q" := true ]}))
           = Some v
         ∧ (ToNand ≠ ToImpliesFalse →
            variables h
            = variables (Nand (Leaf "q") (Nand (Leaf "q") (Leaf "r")))
            ∧ evaluate h (<[ "r" := false ]> {[ "q" := true ]}) = Some v).
Proof.
  apply (stable_set_same_truth_table ToNand
           (Nand (Leaf "q") (Nand (Leaf "q") (Leaf "r")))
           (<[ "r" := false ]> {[ "q" := true ]})
           (<[ "p" := true ]> (<[ "r" := false ]> {[ "q" := true ]}))).
  - reflexivity.
  - reflexivity.
  - vm_compute variables. rewrite dom_insert_L, dom_singleton_L. set_solver.
  - apply insert_subseteq. reflexivity.
  - rewrite dom_insert_L. set_solver.
Defined.

(** C7 (conjunction under [to_nand]).  For the input [(p&q)] the reducer
    [to_nand] returns a tree with the truth table of
    [((p-&q)-&(p-&q))]: in every model of [p] and [q] both have the truth
    value of the conjunction. *)
Theorem to_nand_conjunction (model : gmap string bool) (x y : bool) :
  model !! "p" = Some x → model !! "q" = Some y →
  ∃ h, to_nand (And (Leaf "p") (Leaf "q")) = Return h
       ∧ evaluate h model
         = evaluate (Nand (Nand (Leaf "p") (Leaf "q"))
                          (Nand (Leaf "p") (Leaf "q"))) model
       ∧ evaluate h model = Some (x && y).
Proof.
  intros Hp Hq. eexists. split; [reflexivity |]. split; [reflexivity |].
  evaluate_nodes. rewrite Hp, Hq. by destruct x, y.
Qed.

Lemma to_nand_conjunction_witness :
  ∃ h, to_nand (And (Leaf "p") (Leaf "q")) = Return h
       ∧ evaluate h (<[ "q" := false ]> {[ "p" := true ]})
         = evaluate (Nand (Nand (Leaf "p") (Leaf "q"))
                          (Nand (Leaf "p") (Leaf "q")))
             (<[ "q" := false ]> {[ "p" := true ]})
       ∧ evaluate h (<[ "q" := false ]> {[ "p" := true ]})
         = Some (true && false).
Proof.
  apply (to_nand_conjunction (<[ "q" := false ]> {[ "p" := true ]})
           true false); reflexivity.
Defined.

(** C8 (no constants after the base pass).  For every well-formed input,
    with or without constants, the tree handed to the second pass of
    [to_not_and], [to_nand] and [to_implies_not] has no constant node, so
    the constant case of that pass is never taken, and neither has the tree
    the reducer returns. *)
Theorem no_constant_reaches_second_pass (f : Formula) :
  well_formed f = true →
  ∃ g h k i,
    to_not_and_or f = Return g ∧ has_constant g = false
    ∧ to_not_and_conv g = Return h ∧ to_not_and f = Return h
    ∧ has_constant h = false
    ∧ to_nand_conv h = Return k ∧ to_nand f = Return k
    ∧ has_constant k = false
    ∧ to_implies_not_conv g = Return i ∧ to_implies_not f = Return i
    ∧ has_constant i = false.
Proof.
  intros Hwf.
  destruct (to_nand_chain f Hwf)
    as (g & h & k & Hg & Hgf & Hh & Hhf & Hna & Hk & (_ & _ & Hkc) & Hnand).
  destruct (to_implies_not_chain f Hwf)
    as (g' & i & Hg' & _ & Hi & (_ & _ & Hic) & Himp).
  assert (g' = g) as -> by congruence.
  destruct (not_and_or_form_scan g Hgf) as (_ & _ & Hgc).
  destruct (not_and_form_scan h Hhf) as (_ & _ & Hhc).
  exists g, h, k, i. repeat split; auto.
Qed.

Lemma no_constant_reaches_second_pass_witness :
  ∃ g h k i,
    to_not_and_or (Implies (Leaf "T") (Formula2 "+" (Leaf "F") (Leaf "q")))
    = Return g
    ∧ has_constant g = false
    ∧ to_not_and_conv g = Return h
    ∧ to_not_and (Implies (Leaf "T") (Formula2 "+" (Leaf "F") (Leaf "q")))
      = Return h
    ∧ has_constant h = false
    ∧ to_nand_conv h = Return k
    ∧ to_nand (Implies (Leaf "T") (Formula2 "+" (Leaf "F") (Leaf "q")))
      = Return k
    ∧ has_constant k = false
    ∧ to_implies_not_conv g = Return i
    ∧ to_implies_not
        (Implies (Leaf "T") (Formula2 "+" (Leaf "F") (Leaf "q")))
      = Return i
    ∧ has_constant i = false.
Proof.
  apply (no_constant_reaches_second_pass
           (Implies (Leaf "T") (Formula2 "+" (Leaf "F") (Leaf "q")))).
  reflexivity.
Defined.

(** C9 (the placeholder).  The base pass replaces [T] by [(p|~p)] and [F]
    by [(p&~p)] with the literal variable [p]; these are true and false
    under every value of [p]; and in every model over the variables of a
    well-formed [f] that gives [p] a value, whether or not [p] occurs in
    [f], each reducer returns a tree with the truth value of [f] whose
    variables are those of [f] and possibly [p]. *)
Theorem placeholder_capture_harmless (r : reducer) (f : Formula)
    (model : gmap string bool) :
  well_formed f = true → variables f ⊆ dom model → "p" ∈ dom model →
  to_not_and_or (Leaf "T") = Return (Or (Leaf "p") (Not (Leaf "p")))
  ∧ to_not_and_or (Leaf "F") = Return (And (Leaf "p") (Not (Leaf "p")))
  ∧ evaluate (Or (Leaf "p") (Not (Leaf "p"))) model = Some true
  ∧ evaluate (And (Leaf "p") (Not (Leaf "p"))) model = Some false
  ∧ ∃ h v, reduce r f = Return h
           ∧ evaluate f model = Some v
           ∧ evaluate h model = Some v
           ∧ variables h ⊆ variables f ∪ {[ "p" ]}.
Proof.
  intros Hwf Hvars Hp.
  split; [reflexivity |]. split; [reflexivity |].
  pose proof Hp as [b Hb]%elem_of_dom.
  split; [evaluate_nodes; rewrite Hb; by destruct b |].
  split; [evaluate_nodes; rewrite Hb; by destruct b |].
  destruct (reduce_evaluates_to r f model model Hwf Hvars) as
    (v & Hv & h & Hh & Hev); [done | done |].
  exists h, v. repeat split; try done.
  by apply (reduce_variables r).
Qed.

Lemma placeholder_capture_harmless_witness :
  to_not_and_or (Leaf "T") = Return (Or (Leaf "p") (Not (Leaf "p")))
  ∧ to_not_and_or (Leaf "F") = Return (And (Leaf "p") (Not (Leaf "p")))
  ∧ evaluate (Or (Leaf "p") (Not (Leaf "p"))) {[ "p" := false ]} = Some true
  ∧ evaluate (And (Leaf "p") (Not (Leaf "p"))) {[ "p" := false ]}
    = Some false
  ∧ ∃ h v, reduce ToImpliesFalse (Formula2 "<->" (Leaf "p") (Leaf "T"))
           = Return h
           ∧ evaluate (Formula2 "<->" (Leaf "p") (Leaf "T"))
               {[ "p" := false ]} = Some v
           ∧ evaluate h {[ "p" := false ]} = Some v
           ∧ variables h
             ⊆ variables (Formula2 "<->" (Leaf "p") (Leaf "T")) ∪ {[ "p" ]}.
Proof.
  apply (placeholder_capture_harmless ToImpliesFalse
           (Formula2 "<->" (Leaf "p") (Leaf "T")) {[ "p" := false ]}).
  - reflexivity.
  - vm_compute variables. rewrite dom_singleton_L. set_solver.
  - rewrite dom_singleton_L. set_solver.
Defined.

(** C10 (fixed points of the base pass).  A well-formed formula built
    from variables, [~], [&] and [|] only is returned as it is; hence
    running [to_not_and_or] on its own result changes nothing, for every
    well-formed input. *)
Theorem to_not_and_or_idempotent (f : Formula) :
  well_formed f = true →
  (uses_only ["~"; "&"; "|"] f = true → to_not_and_or f = Return f)
  ∧ (to_not_and_or f ≫= to_not_and_or) = to_not_and_or f.
Proof.
  intros Hwf. split.
  - intros Hscan. apply not_and_or_form_fixed.
    by apply scan_not_and_or_form.
  - destruct (to_not_and_or_form f Hwf) as (g & -> & Hgf).
    rewrite bind_Return. by apply not_and_or_form_fixed.
Qed.

Lemma to_not_and_or_idempotent_witness :
  (uses_only ["~"; "&"; "|"]
     (Or (Not (Leaf "q")) (And (Leaf "p") (Leaf "z3"))) = true →
   to_not_and_or (Or (Not (Leaf "q")) (And (Leaf "p") (Leaf "z3")))
   = Return (Or (Not (Leaf "q")) (And (Leaf "p") (Leaf "z3"))))
  ∧ (to_not_and_or (Or (Not (Leaf "q")) (And (Leaf "p") (Leaf "z3")))
     ≫= to_not_and_or)
    = to_not_and_or (Or (Not (Leaf "q")) (And (Leaf "p") (Leaf "z3"))).
Proof.
  apply (to_not_and_or_idempotent
           (Or (Not (Leaf "q")) (And (Leaf "p") (Leaf "z3")))).
  reflexivity.
Defined.

(** The same on an input the base pass does rewrite. *)
Example to_not_and_or_twice :
  (to_not_and_or (Formula2 "+" (Leaf "T") (Leaf "q")) ≫= to_not_and_or)
  = to_not_and_or (Formula2 "+" (Leaf "T") (Leaf "q")).
Proof. reflexivity. Qed.

(** * Further properties of the converters *)

(** ** Variables of the results *)

Lemma to_not_and_or_variables_exact f g :
  well_formed f = true → to_not_and_or f = Return g →
  variables g
  = variables f ∪ (if has_constant f then {[ "p" ]} else ∅).
Proof.
  intros Hwf Hg. at_result Hg. revert f Hwf.
  apply to_not_and_or_elim;
    intros; cbn [has_constant variables];
    change (is_variable "F") with false;
    change (is_variable "T") with false;
    change (is_variable "p") with true;
    change (is_constant "T") with true;
    change (is_constant "F") with true;
    change (is_constant "~") with false;
    change (is_constant "&") with false;
    change (is_constant "|") with false;
    change (is_constant "->") with false;
    change (is_constant "+") with false;
    change (is_constant "<->") with false;
    change (is_constant "-&") with false;
    change (is_constant "-|") with false;
    cbv iota; cbn [orb];
    repeat match goal with
      | H : is_variable ?x = true |- _ =>
          rewrite ?H, ?(is_variable_not_constant x H); clear H
      | H : variables _ = _ |- _ => rewrite H; clear H
      end;
    repeat match goal with
      | |- context [has_constant ?a] => destruct (has_constant a)
      end;
    cbn [orb]; set_solver.
Qed.

Lemma reduce_variables_exact_aux r f :
  well_formed f = true →
  ∃ h, reduce r f = Return h
       ∧ variables h
         = variables f ∪ (if has_constant f then {[ "p" ]} else ∅).
Proof.
  intros Hwf.
  destruct (reduce_stages r f Hwf) as (g & h & Hg & _ & Hh & Hv & _).
  exists h. split; [done |].
  rewrite Hv. by apply to_not_and_or_variables_exact.
Qed.

(** X1.  The variables of a reducer's result are exactly those of the
    input, together with the placeholder [p] when, and only when, the input
    holds a constant. *)
Theorem reduce_variables_exact (r : reducer) (f : Formula) :
  well_formed f = true →
  ∃ h, reduce r f = Return h
       ∧ variables h
         = variables f ∪ (if has_constant f then {[ "p" ]} else ∅).
Proof. apply reduce_variables_exact_aux. Qed.

Lemma reduce_variables_exact_witness :
  ∃ h, reduce ToImpliesNot (Or (Leaf "F") (Not (Leaf "q"))) = Return h
       ∧ variables h
         = variables (Or (Leaf "F") (Not (Leaf "q")))
           ∪ (if has_constant (Or (Leaf "F") (Not (Leaf "q")))
              then {[ "p" ]} else ∅).
Proof.
  apply (reduce_variables_exact ToImpliesNot
           (Or (Leaf "F") (Not (Leaf "q")))).
  reflexivity.
Defined.

(** X2.  On a well-formed input without constants no placeholder is
    needed: the result of every reducer has the truth value of the input in
    every model whatsoever, and no value in exactly the models where the
    input has none. *)
Theorem constant_free_equivalent (r : reducer) (f : Formula) :
  well_formed f = true → has_constant f = false →
  ∃ h, reduce r f = Return h
       ∧ ∀ model : gmap string bool, evaluate h model = evaluate f model.
Proof.
  intros Hwf Hc. destruct (reduce_total r f Hwf) as (h & Hh).
  exists h. split; [done |].
  by apply (reduce_no_constant r f h).
Qed.

Lemma constant_free_equivalent_witness :
  ∃ h, reduce ToNand (Formula2 "<->" (Leaf "q") (Not (Leaf "x")))
       = Return h
       ∧ ∀ model : gmap string bool,
           evaluate h model
           = evaluate (Formula2 "<->" (Leaf "q") (Not (Leaf "x"))) model.
Proof.
  apply (constant_free_equivalent ToNand
           (Formula2 "<->" (Leaf "q") (Not (Leaf "x"))));
    reflexivity.
Defined.

(** X3.  A bare variable, whatever its name, is returned as it is by
    all five reducers. *)
Theorem reduce_variable_unchanged (r : reducer) (x : string) :
  is_variable x = true → reduce r (Leaf x) = Return (Leaf x).
Proof.
  intros Hx.
  destruct r; cbn [reduce];
    unfold to_nand, to_not_and, to_implies_not, to_implies_false;
    rewrite to_not_and_or_variable by done; rewrite ?bind_Return;
    rewrite ?to_not_and_conv_variable by done; rewrite ?bind_Return;
    rewrite ?to_nand_conv_variable, ?to_implies_not_conv_variable,
      ?to_implies_false_conv_variable by done;
    reflexivity.
Qed.

Lemma reduce_variable_unchanged_witness :
  reduce ToNand (Leaf "x12") = Return (Leaf "x12").
Proof. apply (reduce_variable_unchanged ToNand "x12"). reflexivity. Defined.

(** ** Which exception *)

Lemma to_not_and_or_first_unknown f :
  arity_respected f = true →
  match first_unknown f with
  | Some op => to_not_and_or f = Raise (ValueError ("Unknown operator: " ++ op))
  | None => well_formed f = true
  end.
Proof.
  induction f as [r | r a IHa | r a IHa b IHb];
    cbn [arity_respected well_formed first_unknown].
  - done.
  - intros [Hu Ha]%andb_true_iff. specialize (IHa Ha).
    destruct (first_unknown a) as [op |].
    + apply is_unary_eq in Hu. subst r.
      by rewrite to_not_and_or_not, IHa.
    + by rewrite Hu, IHa.
  - intros [[Hr Ha]%andb_true_iff Hb]%andb_true_iff.
    apply negb_true_iff in Hr.
    apply orb_false_iff in Hr. destruct Hr as [Hr Hu].
    apply orb_false_iff in Hr. destruct Hr as [Hv Hc].
    specialize (IHa Ha). specialize (IHb Hb).
    destruct (first_unknown a) as [op |].
    { rewrite to_not_and_or_binary by done. by rewrite IHa. }
    destruct (to_not_and_or_total a IHa) as (a' & Ha').
    destruct (first_unknown b) as [op |].
    { rewrite to_not_and_or_binary by done. by rewrite Ha', IHb. }
    destruct (to_not_and_or_total b IHb) as (b' & Hb').
    destruct (is_binary r) eqn:Hbin.
    + by rewrite IHa, IHb.
    + rewrite to_not_and_or_binary by done. rewrite Ha', Hb'.
      rewrite !bind_Return.
      destruct (is_binary_false r Hbin)
        as (-> & -> & -> & -> & -> & -> & ->).
      done.
Qed.

(** X4.  On a tree that respects arities, the exception every reducer
    raises names the unknown symbol met first when children are converted
    before their parent and the first child before the second; there is
    such a symbol exactly when the tree is not well-formed. *)
Theorem reduce_raises_first_unknown (r : reducer) (f : Formula) :
  arity_respected f = true →
  (first_unknown f = None ↔ well_formed f = true)
  ∧ ∀ op, first_unknown f = Some op →
          reduce r f = Raise (ValueError ("Unknown operator: " ++ op)).
Proof.
  intros Harity. pose proof (to_not_and_or_first_unknown f Harity) as H.
  split.
  - split.
    + intros Hnone. by rewrite Hnone in H.
    + intros Hwf. destruct (first_unknown f) as [op |]; [| done].
      destruct (to_not_and_or_total f Hwf) as (g & Hg). congruence.
  - intros op Hop. rewrite Hop in H. by apply reduce_propagates.
Qed.

Lemma reduce_raises_first_unknown_witness :
  (first_unknown
     (Formula2 "^" (Formula2 "=>" (Leaf "p") (Leaf "q"))
        (Formula2 "%" (Leaf "q") (Leaf "T"))) = None
   ↔ well_formed
       (Formula2 "^" (Formula2 "=>" (Leaf "p") (Leaf "q"))
          (Formula2 "%" (Leaf "q") (Leaf "T"))) = true)
  ∧ ∀ op, first_unknown
            (Formula2 "^" (Formula2 "=>" (Leaf "p") (Leaf "q"))
               (Formula2 "%" (Leaf "q") (Leaf "T"))) = Some op →
          reduce ToImpliesFalse
            (Formula2 "^" (Formula2 "=>" (Leaf "p") (Leaf "q"))
               (Formula2 "%" (Leaf "q") (Leaf "T")))
          = Raise (ValueError ("Unknown operator: " ++ op)).
Proof.
  apply (reduce_raises_first_unknown ToImpliesFalse
           (Formula2 "^" (Formula2 "=>" (Leaf "p") (Leaf "q"))
              (Formula2 "%" (Leaf "q") (Leaf "T")))).
  reflexivity.
Defined.

Example first_of_three_unknown :
  to_implies_false
    (Formula2 "^" (Formula2 "=>" (Leaf "p") (Leaf "q"))
       (Formula2 "%" (Leaf "q") (Leaf "T")))
  = Raise (ValueError "Unknown operator: =>").
Proof. reflexivity. Qed.

(** ** [to_not_and] on its own results *)

Lemma not_and_form_not_and_or_form h :
  not_and_form h → not_and_or_form h.
Proof. induction 1; by constructor. Qed.

Lemma to_not_and_conv_fixed h :
  not_and_form h → to_not_and_conv h = Return h.
Proof.
  induction 1 as [x Hx | a _ IHa | a b _ IHa _ IHb].
  - by apply to_not_and_conv_variable.
  - change (to_not_and_conv (Not a))
      with (x ← to_not_and_conv a; Return (Not x)).
    by rewrite IHa.
  - change (to_not_and_conv (And a b))
      with (x ← to_not_and_conv a; y ← to_not_and_conv b;
            Return (And x y)).
    by rewrite IHa, IHb.
Qed.

Lemma not_and_form_fixed h : not_and_form h → to_not_and h = Return h.
Proof.
  intros Hh. unfold to_not_and.
  rewrite (not_and_or_form_fixed h) by by apply not_and_form_not_and_or_form.
  rewrite bind_Return. by apply to_not_and_conv_fixed.
Qed.

Lemma scan_not_and_form f :
  well_formed f = true → uses_only ["~"; "&"] f = true → not_and_form f.
Proof.
  revert f. apply (well_formed_ind
    (fun f => uses_only ["~"; "&"] f = true → not_and_form f)).
  - intros x Hx _. by constructor.
  - discriminate.
  - discriminate.
  - intros a _ IH Hscan. constructor. apply IH.
    cbn [uses_only] in Hscan. by apply andb_true_iff in Hscan as [_ ?].
  - intros op a b Hop _ _ IHa IHb Hscan. cbn [uses_only] in Hscan.
    apply andb_true_iff in Hscan as [Hscan Hb].
    apply andb_true_iff in Hscan as [Hin Ha].
    cbn in Hop.
    destruct Hop as [<- | [<- | [<- | [<- | [<- | [<- | [<- | []]]]]]]];
      try discriminate; constructor; auto.
Qed.

(** X5.  [to_not_and] returns a well-formed formula over variables, [~]
    and [&] structurally unchanged, and running it on its own result
    changes nothing, for every well-formed input. *)
Theorem to_not_and_idempotent (f : Formula) :
  well_formed f = true →
  (uses_only ["~"; "&"] f = true → to_not_and f = Return f)
  ∧ (to_not_and f ≫= to_not_and) = to_not_and f.
Proof.
  intros Hwf. split.
  - intros Hscan. apply not_and_form_fixed. by apply scan_not_and_form.
  - destruct (to_not_and_chain f Hwf) as (g & h & _ & _ & _ & Hhf & ->).
    rewrite bind_Return. by apply not_and_form_fixed.
Qed.

Lemma to_not_and_idempotent_witness :
  (uses_only ["~"; "&"] (Formula2 "-|" (Leaf "T") (Leaf "q")) = true →
   to_not_and (Formula2 "-|" (Leaf "T") (Leaf "q"))
   = Return (Formula2 "-|" (Leaf "T") (Leaf "q")))
  ∧ (to_not_and (Formula2 "-|" (Leaf "T") (Leaf "q")) ≫= to_not_and)
    = to_not_and (Formula2 "-|" (Leaf "T") (Leaf "q")).
Proof.
  apply (to_not_and_idempotent (Formula2 "-|" (Leaf "T") (Leaf "q"))).
  reflexivity.
Defined.

(** ** Height and size of the results *)

Ltac depth_node :=
  intros; cbn [formula_depth formula_size] in *; try lia.

Lemma to_not_and_or_depth f g :
  well_formed f = true → to_not_and_or f = Return g →
  (formula_depth f ≤ formula_depth g ≤ 3 * formula_depth f + 2
   ∧ formula_size f ≤ formula_size g)%nat.
Proof.
  intros Hwf Hg. at_result Hg. revert f Hwf.
  apply to_not_and_or_elim; depth_node.
Qed.

Lemma to_not_and_conv_depth g h :
  not_and_or_form g → to_not_and_conv g = Return h →
  (formula_depth g ≤ formula_depth h ≤ 3 * formula_depth g)%nat.
Proof.
  intros Hg Hh. at_result Hh. revert g Hg.
  apply to_not_and_conv_elim; depth_node.
Qed.

Lemma to_implies_not_conv_depth g h :
  not_and_or_form g → to_implies_not_conv g = Return h →
  (formula_depth g ≤ formula_depth h ≤ 3 * formula_depth g)%nat.
Proof.
  intros Hg Hh. at_result Hh. revert g Hg.
  apply to_implies_not_conv_elim; depth_node.
Qed.

Lemma to_implies_false_conv_depth g h :
  not_and_or_form g → to_implies_false_conv g = Return h →
  (formula_depth g ≤ formula_depth h ≤ 3 * formula_depth g)%nat.
Proof.
  intros Hg Hh. at_result Hh. revert g Hg.
  apply to_implies_false_conv_elim; depth_node.
Qed.

(** The nand pass: the height at most doubles, and the result is a tree
    with at least as many nodes as the full binary tree of the height of
    its input. *)
Lemma to_nand_conv_depth h k :
  not_and_form h → to_nand_conv h = Return k →
  (formula_depth h ≤ formula_depth k ≤ 2 * formula_depth h
   ∧ formula_size h ≤ formula_size k
   ∧ 2 ^ (formula_depth h + 1) ≤ formula_size k + 1)%nat.
Proof.
  intros Hh Hk. at_result Hk. revert h Hh.
  apply to_nand_conv_elim.
  - intros x _. cbn. lia.
  - intros a a' (Hd & Hs & Hp). cbn [formula_depth formula_size].
    repeat split; try lia.
    change (S (formula_depth a) + 1)%nat with (S (formula_depth a + 1)).
    rewrite Nat.pow_succ_r'. lia.
  - intros a b a' b' (Hda & Hsa & Hpa) (Hdb & Hsb & Hpb).
    cbn [formula_depth formula_size].
    repeat split; try lia.
    change (S (Nat.max (formula_depth a) (formula_depth b)) + 1)%nat
      with (S (Nat.max (formula_depth a) (formula_depth b) + 1)).
    rewrite Nat.pow_succ_r'.
    destruct (Nat.max_spec (formula_depth a) (formula_depth b))
      as [[_ ->] | [_ ->]]; lia.
Qed.

Lemma reduce_depth_size r f :
  well_formed f = true →
  ∃ h, reduce r f = Return h
       ∧ (formula_depth f ≤ formula_depth h ≤ depth_bound r (formula_depth f)
          ∧ formula_size f ≤ formula_size h)%nat.
Proof.
  intros Hwf. destruct r; cbn [reduce depth_bound].
  - destruct (to_not_and_or_total f Hwf) as (g & Hg).
    exists g. split; [done |].
    by apply to_not_and_or_depth.
  - destruct (to_not_and_chain f Hwf) as (g & h & Hg & Hgf & Hh & _ & Hr).
    exists h. split; [done |].
    pose proof (to_not_and_or_depth f g Hwf Hg).
    pose proof (to_not_and_conv_depth g h Hgf Hh).
    pose proof (to_not_and_conv_size g h Hgf Hh).
    lia.
  - destruct (to_nand_chain f Hwf)
      as (g & h & k & Hg & Hgf & Hh & Hhf & _ & Hk & _ & Hr).
    exists k. split; [done |].
    pose proof (to_not_and_or_depth f g Hwf Hg).
    pose proof (to_not_and_conv_depth g h Hgf Hh).
    pose proof (to_not_and_conv_size g h Hgf Hh).
    pose proof (to_nand_conv_depth h k Hhf Hk).
    lia.
  - destruct (to_implies_not_chain f Hwf) as (g & h & Hg & Hgf & Hh & _ & Hr).
    exists h. split; [done |].
    pose proof (to_not_and_or_depth f g Hwf Hg).
    pose proof (to_implies_not_conv_depth g h Hgf Hh).
    pose proof (to_implies_not_conv_size g h Hgf Hh).
    lia.
  - destruct (to_implies_false_chain f Hwf)
      as (g & h & Hg & Hgf & Hh & _ & Hr).
    exists h. split; [done |].
    pose proof (to_not_and_or_depth f g Hwf Hg).
    pose proof (to_implies_false_conv_depth g h Hgf Hh).
    pose proof (to_implies_false_conv_size g h Hgf Hh).
    lia.
Qed.

(** X6.  No reducer returns a tree with fewer nodes than its input. *)
Theorem reduce_never_shrinks (r : reducer) (f : Formula) :
  well_formed f = true →
  ∃ h, reduce r f = Return h ∧ (formula_size f ≤ formula_size h)%nat.
Proof.
  intros Hwf. destruct (reduce_depth_size r f Hwf) as (h & Hh & _ & Hs).
  by exists h.
Qed.

Lemma reduce_never_shrinks_witness :
  ∃ h, reduce ToImpliesNot (And (Leaf "T") (Not (Leaf "q"))) = Return h
       ∧ (formula_size (And (Leaf "T") (Not (Leaf "q")))
          ≤ formula_size h)%nat.
Proof.
  apply (reduce_never_shrinks ToImpliesNot (And (Leaf "T") (Not (Leaf "q")))).
  reflexivity.
Defined.

(** X7.  The result of [to_nand] has at least as many nodes as the full
    binary tree of the input's height: [2 ^ (height + 1) - 1]. *)
Theorem to_nand_exponential (f : Formula) :
  well_formed f = true →
  ∃ k, to_nand f = Return k
       ∧ (2 ^ (formula_depth f + 1) ≤ formula_size k + 1)%nat.
Proof.
  intros Hwf.
  destruct (to_nand_chain f Hwf)
    as (g & h & k & Hg & Hgf & Hh & Hhf & _ & Hk & _ & Hr).
  exists k. split; [done |].
  destruct (to_not_and_or_depth f g Hwf Hg) as ((Hfg & _) & _).
  destruct (to_not_and_conv_depth g h Hgf Hh) as (Hgh & _).
  destruct (to_nand_conv_depth h k Hhf Hk) as (_ & _ & Hpow).
  etrans; [| exact Hpow].
  apply Nat.pow_le_mono_r; lia.
Qed.

Lemma to_nand_exponential_witness :
  ∃ k, to_nand (Not (Not (Or (Leaf "p") (Not (Leaf "q"))))) = Return k
       ∧ (2 ^ (formula_depth (Not (Not (Or (Leaf "p") (Not (Leaf "q"))))) + 1)
          ≤ formula_size k + 1)%nat.
Proof.
  apply (to_nand_exponential (Not (Not (Or (Leaf "p") (Not (Leaf "q")))))).
  reflexivity.
Defined.

(** X8.  The height of a result is at least the height of the input and
    grows at most linearly with it: at most [3d+2] for [to_not_and_or],
    [9d+6] for [to_not_and], [to_implies_not] and [to_implies_false], and
    [18d+12] for [to_nand], for an input of height [d]. *)
Theorem reduce_depth_linear (r : reducer) (f : Formula) :
  well_formed f = true →
  ∃ h, reduce r f = Return h
       ∧ (formula_depth f ≤ formula_depth h
          ≤ depth_bound r (formula_depth f))%nat.
Proof.
  intros Hwf. destruct (reduce_depth_size r f Hwf) as (h & Hh & Hd & _).
  by exists h.
Qed.

Lemma reduce_depth_linear_witness :
  ∃ h, reduce ToNand (Formula2 "+" (Leaf "F") (Not (Leaf "q"))) = Return h
       ∧ (formula_depth (Formula2 "+" (Leaf "F") (Not (Leaf "q")))
          ≤ formula_depth h
          ≤ depth_bound ToNand
              (formula_depth (Formula2 "+" (Leaf "F") (Not (Leaf "q")))))%nat.
Proof.
  apply (reduce_depth_linear ToNand
           (Formula2 "+" (Leaf "F") (Not (Leaf "q")))).
  reflexivity.
Defined.

(** ** The second passes on trees that hold constants

    The base pass never hands a constant to a second pass, yet each [conv]
    has a branch for constants.  What those branches would do is read off
    over [not_and_or_constant_form]. *)

Lemma to_implies_false_conv_constants_aux g :
  not_and_or_constant_form g →
  ∃ h, to_implies_false_conv g = Return h
       ∧ well_formed h = true
       ∧ uses_only ["->"; "F"] h = true
       ∧ variables h = variables g
       ∧ ∀ model : gmap string bool, evaluate h model = evaluate g model.
Proof.
  induction 1 as [x Hx | | | a _ (a' & Ha & Hwa & Hsa & Hva & Hea)
                 | a b _ (a' & Ha & Hwa & Hsa & Hva & Hea)
                       _ (b' & Hb & Hwb & Hsb & Hvb & Heb)
                 | a b _ (a' & Ha & Hwa & Hsa & Hva & Hea)
                       _ (b' & Hb & Hwb & Hsb & Hvb & Heb)].
  - exists (Leaf x). rewrite to_implies_false_conv_variable by done.
    repeat split; cbn [well_formed uses_only]; by rewrite ?Hx.
  - exists (Implies (Leaf "F") (Leaf "F")). repeat split.
  - exists (Leaf "F"). repeat split.
  - exists (Implies a' (Leaf "F")).
    change (to_implies_false_conv (Not a))
      with (x ← to_implies_false_conv a; Return (Implies x (Leaf "F"))).
    rewrite Ha. split; [done |].
    cbn [well_formed uses_only]. rewrite Hwa, Hsa.
    repeat split; [variables_node |].
    intros model. evaluate_nodes. rewrite Hea. truth_table.
  - exists (Implies (Implies a' (Implies b' (Leaf "F"))) (Leaf "F")).
    change (to_implies_false_conv (And a b))
      with (x ← to_implies_false_conv a; y ← to_implies_false_conv b;
            Return (Implies (Implies x (Implies y (Leaf "F")))
                            (Leaf "F"))).
    rewrite Ha, Hb. split; [done |].
    cbn [well_formed uses_only]. rewrite Hwa, Hsa, Hwb, Hsb.
    repeat split; [variables_node |].
    intros model. evaluate_nodes. rewrite Hea, Heb. truth_table.
  - exists (Implies (Implies a' (Leaf "F")) b').
    change (to_implies_false_conv (Or a b))
      with (x ← to_implies_false_conv a; y ← to_implies_false_conv b;
            Return (Implies (Implies x (Leaf "F")) y)).
    rewrite Ha, Hb. split; [done |].
    cbn [well_formed uses_only]. rewrite Hwa, Hsa, Hwb, Hsb.
    repeat split; [variables_node |].
    intros model. evaluate_nodes. rewrite Hea, Heb. truth_table.
Qed.

(** X9.  The second pass of [to_implies_false] turns the constant [T]
    into [(F->F)] and leaves the constant [F] as it is; run on any tree over
    variables, [T], [F], [~], [&] and [|], it returns a well-formed tree
    over [->] and [F] with the same variables and, in every model, the same
    truth value, so that it needs no placeholder. *)
Theorem to_implies_false_conv_constants (g : Formula) :
  not_and_or_constant_form g →
  to_implies_false_conv (Leaf "T")
  = Return (Implies (Leaf "F") (Leaf "F"))
  ∧ to_implies_false_conv (Leaf "F") = Return (Leaf "F")
  ∧ ∃ h, to_implies_false_conv g = Return h
         ∧ well_formed h = true
         ∧ uses_only ["->"; "F"] h = true
         ∧ variables h = variables g
         ∧ ∀ model : gmap string bool, evaluate h model = evaluate g model.
Proof.
  intros Hg. split; [reflexivity |]. split; [reflexivity |].
  by apply to_implies_false_conv_constants_aux.
Qed.

Lemma to_implies_false_conv_constants_witness :
  to_implies_false_conv (Leaf "T")
  = Return (Implies (Leaf "F") (Leaf "F"))
  ∧ to_implies_false_conv (Leaf "F") = Return (Leaf "F")
  ∧ ∃ h, to_implies_false_conv (Or (Leaf "T") (Not (Leaf "q"))) = Return h
         ∧ well_formed h = true
         ∧ uses_only ["->"; "F"] h = true
         ∧ variables h = variables (Or (Leaf "T") (Not (Leaf "q")))
         ∧ ∀ model : gmap string bool,
             evaluate h model
             = evaluate (Or (Leaf "T") (Not (Leaf "q"))) model.
Proof.
  apply (to_implies_false_conv_constants (Or (Leaf "T") (Not (Leaf "q")))).
  apply naocf_or; [apply naocf_T |].
  apply naocf_not. apply naocf_variable. reflexivity.
Defined.



(** ** [to_nand] on its own results *)

Lemma to_not_and_or_counts_nand f g :
  well_formed f = true → to_not_and_or f = Return g →
  (formula_size f + count_root "-&" f ≤ formula_size g)%nat.
Proof.
  intros Hwf Hg. at_result Hg. revert f Hwf.
  apply to_not_and_or_elim;
    intros; cbn [formula_size];
    repeat match goal with
      | H : is_variable ?x = true |- context [count_root ?s (Formula0 ?x)] =>
          rewrite (count_root_leaf s x H) by reflexivity
      end;
    cbn [count_root String.eqb Ascii.eqb Bool.eqb]; lia.
Qed.

Lemma to_not_and_or_leaf f g :
  well_formed f = true → to_not_and_or f = Return g →
  is_variable (root f) = false → is_leaf g = false.
Proof.
  intros Hwf Hg. at_result Hg. revert f Hwf.
  apply to_not_and_or_elim; try done.
  intros x Hx. cbn [root]. congruence.
Qed.

Lemma to_not_and_conv_leaf g h :
  not_and_or_form g → to_not_and_conv g = Return h → is_leaf h = is_leaf g.
Proof.
  intros Hg Hh. at_result Hh. revert g Hg.
  by apply to_not_and_conv_elim.
Qed.

Lemma to_nand_conv_leaf h k :
  not_and_form h → to_nand_conv h = Return k → is_leaf k = is_leaf h.
Proof.
  intros Hh Hk. at_result Hk. revert h Hh.
  by apply to_nand_conv_elim.
Qed.

Lemma nand_root_counted k :
  well_formed k = true → uses_only ["-&"] k = true → is_leaf k = false →
  (1 ≤ count_root "-&" k)%nat.
Proof.
  destruct k as [r | r a | r a b]; cbn [well_formed uses_only is_leaf].
  - done.
  - intros [Hu _]%andb_true_iff [Hr _]%andb_true_iff _.
    apply is_unary_eq in Hu. subst r. discriminate.
  - intros _ [[Hr _]%andb_true_iff _]%andb_true_iff _.
    cbn [existsb] in Hr. rewrite orb_false_r in Hr.
    cbn [count_root]. rewrite Hr. lia.
Qed.

(** X11.  [to_nand] is not idempotent: on every well-formed input other
    than a bare variable, running it again on its own result returns a tree
    with strictly more nodes. *)
Theorem to_nand_grows_on_its_result (f : Formula) :
  well_formed f = true → is_variable (root f) = false →
  ∃ k k', to_nand f = Return k ∧ to_nand k = Return k'
          ∧ (formula_size k < formula_size k')%nat.
Proof.
  intros Hwf Hroot.
  destruct (to_nand_chain f Hwf)
    as (g & h & k & Hg & Hgf & Hh & Hhf & _ & Hk & (Hwk & Hsk & _) & Hr).
  assert (is_leaf k = false) as Hleaf.
  { rewrite (to_nand_conv_leaf h k), (to_not_and_conv_leaf g h) by done.
    by apply (to_not_and_or_leaf f). }
  pose proof (nand_root_counted k Hwk Hsk Hleaf) as Hcount.
  destruct (to_nand_chain k Hwk)
    as (g2 & h2 & k' & Hg2 & Hgf2 & Hh2 & Hhf2 & _ & Hk2 & _ & Hr2).
  exists k, k'. repeat split; try done.
  pose proof (to_not_and_or_counts_nand k g2 Hwk Hg2).
  pose proof (to_not_and_conv_size g2 h2 Hgf2 Hh2).
  pose proof (to_nand_conv_depth h2 k' Hhf2 Hk2).
  lia.
Qed.

Lemma to_nand_grows_on_its_result_witness :
  ∃ k k', to_nand (Not (Leaf "q")) = Return k ∧ to_nand k = Return k'
          ∧ (formula_size k < formula_size k')%nat.
Proof.
  apply (to_nand_grows_on_its_result (Not (Leaf "q"))); reflexivity.
Defined.

(** ** Models that do not mention the placeholder *)

(** A formula has a truth value only in models that cover its variables. *)
Lemma evaluate_Some_variables f (model : gmap string bool) v :
  evaluate f model = Some v → variables f ⊆ dom model.
Proof.
  revert v. induction f as [r | r a IHa | r a IHa b IHb];
    intros v; cbn [evaluate variables].
  - destruct (is_constant r) eqn:Hc.
    + intros _. destruct (is_variable r) eqn:Hv; [| set_solver].
      by rewrite (is_variable_not_constant r Hv) in Hc.
    + destruct (is_variable r); [| done].
      intros Hr. apply singleton_subseteq_l, elem_of_dom. by eexists.
  - destruct (is_unary r); [| done].
    destruct (evaluate a model) as [x |] eqn:Ha; [| done].
    intros _. by apply (IHa x).
  - destruct (evaluate a model) as [x |] eqn:Ha; [| done].
    destruct (evaluate b model) as [y |] eqn:Hb; [| done].
    intros _. specialize (IHa x eq_refl). specialize (IHb y eq_refl).
    set_solver.
Qed.

(** X12.  When the input holds a constant, the result of every reducer
    mentions [p], so it has no truth value in a model that gives [p] none,
    even if the model covers every variable of the input. *)
Theorem placeholder_needs_value (r : reducer) (f : Formula)
    (model : gmap string bool) :
  well_formed f = true → has_constant f = true → "p" ∉ dom model →
  ∃ h, reduce r f = Return h ∧ "p" ∈ variables h
       ∧ evaluate h model = None.
Proof.
  intros Hwf Hc Hp.
  destruct (reduce_variables_exact_aux r f Hwf) as (h & Hh & Hv).
  rewrite Hc in Hv.
  exists h. split; [done |].
  assert ("p" ∈ variables h) as Hin by (rewrite Hv; set_solver).
  split; [done |].
  destruct (evaluate h model) as [v |] eqn:Hev; [| done].
  apply evaluate_Some_variables in Hev. set_solver.
Qed.

Lemma placeholder_needs_value_witness :
  ∃ h, reduce ToNotAnd (Or (Leaf "T") (Leaf "q")) = Return h
       ∧ "p" ∈ variables h
       ∧ evaluate h {[ "q" := true ]} = None.
Proof.
  apply (placeholder_needs_value ToNotAnd (Or (Leaf "T") (Leaf "q"))
           {[ "q" := true ]}).
  - reflexivity.
  - reflexivity.
  - rewrite dom_singleton_L. set_solver.
Defined.

(** ** Node accounting and composition *)

(** X13.  What each second pass adds to the base result [g]: [to_not_and]
    three nodes for every [|] of [g]; [to_implies_not] one node for every
    [|] and two for every [&]; [to_implies_false] one node for every [~],
    two for every [|] and four for every [&]. *)
Theorem second_pass_node_count (f : Formula) :
  well_formed f = true →
  ∃ g h i j,
    to_not_and_or f = Return g
    ∧ to_not_and f = Return h
    ∧ formula_size h = (formula_size g + 3 * count_root "|" g)%nat
    ∧ to_implies_not f = Return i
    ∧ formula_size i
      = (formula_size g + count_root "|" g + 2 * count_root "&" g)%nat
    ∧ to_implies_false f = Return j
    ∧ formula_size j
      = (formula_size g + count_root "~" g
         + 2 * count_root "|" g + 4 * count_root "&" g)%nat.
Proof.
  intros Hwf.
  destruct (to_not_and_chain f Hwf) as (g & h & Hg & Hgf & Hh & _ & Hr).
  destruct (to_implies_not_chain f Hwf) as (g1 & i & Hg1 & _ & Hi & _ & Hr1).
  destruct (to_implies_false_chain f Hwf)
    as (g2 & j & Hg2 & _ & Hj & _ & Hr2).
  assert (g1 = g) as -> by congruence.
  assert (g2 = g) as -> by congruence.
  exists g, h, i, j. repeat split; try done.
  - by apply to_not_and_conv_size.
  - by apply to_implies_not_conv_size.
  - by apply to_implies_false_conv_size.
Qed.

Lemma second_pass_node_count_witness :
  ∃ g h i j,
    to_not_and_or (Formula2 "<->" (Leaf "T") (Leaf "q")) = Return g
    ∧ to_not_and (Formula2 "<->" (Leaf "T") (Leaf "q")) = Return h
    ∧ formula_size h = (formula_size g + 3 * count_root "|" g)%nat
    ∧ to_implies_not (Formula2 "<->" (Leaf "T") (Leaf "q")) = Return i
    ∧ formula_size i
      = (formula_size g + count_root "|" g + 2 * count_root "&" g)%nat
    ∧ to_implies_false (Formula2 "<->" (Leaf "T") (Leaf "q")) = Return j
    ∧ formula_size j
      = (formula_size g + count_root "~" g
         + 2 * count_root "|" g + 4 * count_root "&" g)%nat.
Proof.
  apply (second_pass_node_count (Formula2 "<->" (Leaf "T") (Leaf "q"))).
  reflexivity.
Defined.

(** X14.  The reducers compose: the result of one is a valid input of
    another, and the result of the second is then within the second's
    guaranteed set and has, in every model that gives [p] a value, the truth
    value of the original input. *)
Theorem reducers_compose (r1 r2 : reducer) (f : Formula)
    (model : gmap string bool) :
  well_formed f = true → "p" ∈ dom model →
  ∃ h h', reduce r1 f = Return h
          ∧ reduce r2 h = Return h'
          ∧ well_formed h' = true
          ∧ uses_only (guaranteed_operators r2) h' = true
          ∧ evaluate h' model = evaluate f model.
Proof.
  intros Hwf Hp%elem_of_dom.
  destruct (reduce_scan r1 f Hwf) as (h & Hh & Hwh & _).
  destruct (reduce_evaluate r1 f model Hwf Hp) as (h1 & Hh1 & Hev1).
  assert (h1 = h) as -> by congruence.
  destruct (reduce_scan r2 h Hwh) as (h' & Hh' & Hwh' & Hsh' & _).
  destruct (reduce_evaluate r2 h model Hwh Hp) as (h2 & Hh2 & Hev2).
  assert (h2 = h') as -> by congruence.
  exists h, h'. repeat split; try done. congruence.
Qed.

Lemma reducers_compose_witness :
  ∃ h h', reduce ToNand (Formula2 "+" (Leaf "q") (Leaf "F")) = Return h
          ∧ reduce ToImpliesFalse h = Return h'
          ∧ well_formed h' = true
          ∧ uses_only (guaranteed_operators ToImpliesFalse) h' = true
          ∧ evaluate h' (<[ "p" := true ]> {[ "q" := false ]})
            = evaluate (Formula2 "+" (Leaf "q") (Leaf "F"))
                (<[ "p" := true ]> {[ "q" := false ]}).
Proof.
  apply (reducers_compose ToNand ToImpliesFalse
           (Formula2 "+" (Leaf "q") (Leaf "F"))
           (<[ "p" := true ]> {[ "q" := false ]})).
  - reflexivity.
  - rewrite dom_insert_L. set_solver.
Defined.

(** ** Growth without a constant bound *)

(** An exponential outgrows every linear function. *)
Lemma exponential_outgrows c :
  (c * (4 * c + 3) + 1 < 2 ^ (2 * c + 2))%nat.
Proof.
  replace (2 * c + 2)%nat with (c + c + 2)%nat by lia.
  rewrite !Nat.pow_add_r.
  pose proof (Nat.pow_gt_lin_r 2 c ltac:(lia)) as Hc.
  change (2 ^ 2)%nat with 4%nat. nia.
Qed.

Lemma negations_shape n :
  well_formed (negations n) = true
  ∧ has_xor_or_iff (negations n) = false
  ∧ formula_size (negations n) = S n
  ∧ formula_depth (negations n) = n.
Proof.
  induction n as [| n (Hw & Hx & Hs & Hd)]; [done |].
  cbn [negations well_formed has_xor_or_iff formula_size formula_depth].
  by rewrite Hw, Hx, Hs, Hd.
Qed.

Lemma to_nand_full_tree f :
  well_formed f = true →
  ∃ k, to_nand f = Return k
       ∧ (2 ^ (formula_depth f + 1) ≤ formula_size k + 1)%nat.
Proof.
  intros Hwf.
  destruct (to_nand_chain f Hwf)
    as (g & h & k & Hg & Hgf & Hh & Hhf & _ & Hk & _ & Hr).
  exists k. split; [done |].
  destruct (to_not_and_or_depth f g Hwf Hg) as ((Hfg & _) & _).
  destruct (to_not_and_conv_depth g h Hgf Hh) as (Hgh & _).
  destruct (to_nand_conv_depth h k Hhf Hk) as (_ & _ & Hpow).
  etrans; [| exact Hpow].
  apply Nat.pow_le_mono_r; lia.
Qed.

(** X15.  No constant factor bounds [to_nand], even on inputs without
    xor and iff: for every [c] there is a well-formed input without xor and
    iff for which [to_nand] returns more than [c] times its nodes. *)
Theorem to_nand_unbounded (c : nat) :
  ∃ f k, well_formed f = true ∧ has_xor_or_iff f = false
         ∧ to_nand f = Return k
         ∧ (c * formula_size f < formula_size k)%nat.
Proof.
  destruct (negations_shape (2 * c + 1)) as (Hw & Hx & Hs & Hd).
  destruct (to_nand_full_tree _ Hw) as (k & Hk & Hpow).
  exists (negations (2 * c + 1)), k. repeat split; try done.
  rewrite Hd in Hpow. rewrite Hs.
  replace (2 * c + 1 + 1)%nat with (2 * c + 2)%nat in Hpow by lia.
  pose proof (exponential_outgrows c). nia.
Qed.

Lemma left_chain_shape op n :
  op = "+" ∨ op = "<->" →
  well_formed (left_chain op n) = true
  ∧ uses_only [op] (left_chain op n) = true
  ∧ formula_size (left_chain op n) = (2 * n + 1)%nat.
Proof.
  intros Hop. induction n as [| n (Hw & Hu & Hs)].
  - by destruct Hop as [-> | ->].
  - cbn [left_chain well_formed uses_only formula_size existsb].
    rewrite Hw, Hu, Hs, String.eqb_refl.
    destruct Hop as [-> | ->]; repeat split; try reflexivity; lia.
Qed.

Lemma left_chain_base op n :
  op = "+" ∨ op = "<->" →
  ∃ g, to_not_and_or (left_chain op n) = Return g
       ∧ (2 ^ (n + 1) ≤ formula_size g + 1)%nat.
Proof.
  intros Hop. induction n as [| n (g & Hg & Hpow)].
  - exists (Leaf "q"). split; [reflexivity |]. cbn. lia.
  - cbn [left_chain].
    replace (S n + 1)%nat with (S (n + 1)) by lia.
    rewrite Nat.pow_succ_r'.
    destruct Hop as [-> | ->].
    + rewrite to_not_and_or_xor, Hg, bind_Return.
      rewrite (to_not_and_or_variable "q") by reflexivity.
      rewrite bind_Return. eexists. split; [reflexivity |].
      cbn [formula_size]. lia.
    + rewrite to_not_and_or_iff, Hg, bind_Return.
      rewrite (to_not_and_or_variable "q") by reflexivity.
      rewrite bind_Return. eexists. split; [reflexivity |].
      cbn [formula_size]. lia.
Qed.

(** No second pass returns fewer nodes than it is given. *)
Lemma reduce_at_least_base r f :
  well_formed f = true →
  ∃ g h, to_not_and_or f = Return g ∧ reduce r f = Return h
         ∧ (formula_size g ≤ formula_size h)%nat.
Proof.
  intros Hwf. destruct r; cbn [reduce].
  - destruct (to_not_and_or_total f Hwf) as (g & Hg). by exists g, g.
  - destruct (to_not_and_chain f Hwf) as (g & h & Hg & Hgf & Hh & _ & Hr).
    exists g, h. repeat split; try done.
    rewrite (to_not_and_conv_size g h Hgf Hh). lia.
  - destruct (to_nand_chain f Hwf)
      as (g & h & k & Hg & Hgf & Hh & Hhf & _ & Hk & _ & Hr).
    exists g, k. repeat split; try done.
    pose proof (to_not_and_conv_size g h Hgf Hh).
    pose proof (to_nand_conv_depth h k Hhf Hk). lia.
  - destruct (to_implies_not_chain f Hwf) as (g & h & Hg & Hgf & Hh & _ & Hr).
    exists g, h. repeat split; try done.
    rewrite (to_implies_not_conv_size g h Hgf Hh). lia.
  - destruct (to_implies_false_chain f Hwf)
      as (g & h & Hg & Hgf & Hh & _ & Hr).
    exists g, h. repeat split; try done.
    rewrite (to_implies_false_conv_size g h Hgf Hh). lia.
Qed.

Lemma left_chain_unbounded op r c :
  op = "+" ∨ op = "<->" →
  ∃ f h, well_formed f = true ∧ uses_only [op] f = true
         ∧ reduce r f = Return h
         ∧ (c * formula_size f < formula_size h)%nat.
Proof.
  intros Hop.
  destruct (left_chain_shape op (2 * c + 1) Hop) as (Hw & Hu & Hs).
  destruct (left_chain_base op (2 * c + 1) Hop) as (g & Hg & Hpow).
  destruct (reduce_at_least_base r _ Hw) as (g' & h & Hg' & Hh & Hle).
  assert (g' = g) as -> by congruence.
  exists (left_chain op (2 * c + 1)), h. repeat split; try done.
  rewrite Hs.
  replace (2 * c + 1 + 1)%nat with (2 * c + 2)%nat in Hpow by lia.
  pose proof (exponential_outgrows c). nia.
Qed.

(** X16.  No constant factor bounds any of the five reducers once xor or
    iff may occur: for every reducer and every [c] there is a well-formed
    input whose only operator is xor, and one whose only operator is iff,
    for which the reducer returns more than [c] times its nodes. *)
Theorem xor_iff_unbounded (r : reducer) (c : nat) :
  (∃ f h, well_formed f = true ∧ uses_only ["+"] f = true
          ∧ reduce r f = Return h
          ∧ (c * formula_size f < formula_size h)%nat)
  ∧ (∃ f h, well_formed f = true ∧ uses_only ["<->"] f = true
            ∧ reduce r f = Return h
            ∧ (c * formula_size f < formula_size h)%nat).
Proof.
  split; apply left_chain_unbounded; auto.
Qed.
